(** * Lighthouse: the Styles gatherer and the CSS usage audits

    A shallow embedding of

    - [lighthouse-core/gather/gatherers/styles.js]: the gatherer that follows
      the style sheets of a page between [beginStylesCollect] and
      [endStylesCollect] and removes duplicates in [afterPass];
    - [lighthouse-core/audits/dobetterweb/uses-new-flexbox.js] and its sibling
      audit (the will-change audit): [stylesheetsThatUsedProperty] /
      [getPropertyUse] and [getFormattedStyleContent].

    JavaScript strings are sequences of UTF-16 code units.  They are embedded
    as [string], one [ascii] per code unit, which covers the code units below
    256.  Numbers that the code uses as line and column offsets are integers
    and are embedded as [Z].  [undefined] is [None].  The objects that the
    code assigns to and shares (the [styleHeader] records, the array
    [_activeStyles]) live in stores and are passed by reference; a function
    that assigns or may throw takes the store and returns the new store with
    its completion. *)

From Stdlib Require Import ZArith String Ascii List Lia DecimalString Bool.
From stdpp Require Import gmap strings list.

Open Scope Z_scope.

(** ** The parts of the JavaScript library that the code calls *)

Module JS.

(** Abrupt completions.  The only exception the embedded code can raise by
    itself is the [TypeError] of a property access on [undefined]. *)
Inductive Error :=
  | TypeError.

Inductive Completion (A : Type) :=
  | Return (a : A)
  | Throw (e : Error).
Arguments Return {A} a.
Arguments Throw {A} e.

Definition bind {A B} (c : Completion A) (k : A -> Completion B) : Completion B :=
  match c with
  | Return a => k a
  | Throw e => Throw e
  end.

(** The line feed, and the string of it. *)
Definition LF : ascii := "010".
Definition newline : string := String LF EmptyString.

(** [Array.prototype.filter] with a callback that may throw: the elements
    are visited in order and the first exception ends the call. *)
Fixpoint filter {A} (callback : A -> Completion bool) (l : list A) : Completion (list A) :=
  match l with
  | [] => Return []
  | x :: l' =>
      bind (callback x) (fun keep =>
      bind (filter callback l') (fun rest =>
      Return (if keep then x :: rest else rest)))
  end.

(** [ToBoolean] of a value that is [undefined] or a string. *)
Definition truthy (v : option string) : bool :=
  match v with
  | None => false
  | Some EmptyString => false
  | Some (String _ _) => true
  end.

(** [ToString] of a value that is [undefined] or a string. *)
Definition ToString (v : option string) : string :=
  match v with
  | None => "undefined"
  | Some s => s
  end.

(** [WhiteSpace] and [LineTerminator] code units below 256: TAB, LF, VT, FF,
    CR, SP and NBSP. *)
Definition isWhiteSpace (c : ascii) : bool :=
  let n := N_of_ascii c in
  (((9 <=? n) && (n <=? 13)) || (n =? 32) || (n =? 160))%N.

Fixpoint trimStart (s : string) : string :=
  match s with
  | EmptyString => EmptyString
  | String c s' => if isWhiteSpace c then trimStart s' else s
  end.

Fixpoint trimEnd (s : string) : string :=
  match s with
  | EmptyString => EmptyString
  | String c s' =>
      match trimEnd s' with
      | EmptyString => if isWhiteSpace c then EmptyString else String c EmptyString
      | t => String c t
      end
  end.

(** [String.prototype.trim] *)
Definition trim (s : string) : string := trimEnd (trimStart s).

(** [String.prototype.split] with a separator of one code unit and no limit:
    the pieces between the separators, at least one piece. *)
Fixpoint split (sep : ascii) (s : string) : list string :=
  match s with
  | EmptyString => [EmptyString]
  | String c s' =>
      if Ascii.eqb c sep then EmptyString :: split sep s'
      else match split sep s' with
           | piece :: rest => String c piece :: rest
           | [] => [String c EmptyString]
           end
  end.

(** [Array.prototype.join] on an array of strings *)
Fixpoint join (sep : string) (l : list string) : string :=
  match l with
  | [] => EmptyString
  | [x] => x
  | x :: rest => (x ++ sep ++ join sep rest)%string
  end.

Definition clamp (len z : Z) : Z := Z.min (Z.max z 0) len.

(** [String.prototype.substring(start, end)] with integer arguments: both
    are clamped to the string and swapped when out of order. *)
Definition substring (s : string) (start end_ : Z) : string :=
  let len := Z.of_nat (String.length s) in
  let a := clamp len start in
  let b := clamp len end_ in
  let from := Z.min a b in
  let to := Z.max a b in
  String.substring (Z.to_nat from) (Z.to_nat (to - from)) s.

Fixpoint indexOfFrom (needle s : string) (i : Z) : Z :=
  if String.prefix needle s then i
  else match s with
       | EmptyString => -1
       | String _ s' => indexOfFrom needle s' (i + 1)
       end.

(** [String.prototype.indexOf(searchValue)]: the search value is converted
    with [ToString]; the result is the first position of an occurrence, or -1. *)
Definition indexOf (s : string) (searchValue : option string) : Z :=
  indexOfFrom (ToString searchValue) s 0.

(** Decimal rendering of an integer, as a template literal does it. *)
Definition NumberToString (z : Z) : string :=
  NilEmpty.string_of_int (Z.to_int z).

(** *** [ToNumber] on strings, followed by [ToIntegerOrInfinity]

    [Array.prototype.slice] converts its arguments to numbers.  The code
    passes strings, so the [StringNumericLiteral] grammar is embedded: the
    mathematical value of a literal is [mant * 10 ^ exp10]. *)

Inductive Literal :=
  | LitNaN
  | LitInfinity (neg : bool)
  | LitDecimal (neg : bool) (mant : Z) (exp10 : Z).

Definition digitValue (radix : Z) (c : ascii) : option Z :=
  let n := Z.of_N (N_of_ascii c) in
  let v := if (48 <=? n) && (n <=? 57) then Some (n - 48)
           else if (97 <=? n) && (n <=? 102) then Some (n - 87)
           else if (65 <=? n) && (n <=? 70) then Some (n - 55)
           else None in
  match v with
  | Some d => if d <? radix then Some d else None
  | None => None
  end.

(** The longest run of digits at the head of [s]: its value continuing
    [acc], the number of digits read, and the rest of the string. *)
Fixpoint readDigits (radix : Z) (s : string) (acc : Z) (count : Z) : Z * Z * string :=
  match s with
  | EmptyString => (acc, count, s)
  | String c s' =>
      match digitValue radix c with
      | Some d => readDigits radix s' (radix * acc + d) (count + 1)
      | None => (acc, count, s)
      end
  end.

(** [ExponentPart_opt] up to the end of the string: [Some e] when [s] is
    empty ([e = 0]) or a well-formed exponent part, [None] otherwise. *)
Definition readExponent (s : string) : option Z :=
  match s with
  | EmptyString => Some 0
  | String c s' =>
      if Ascii.eqb c "e" || Ascii.eqb c "E" then
        let '(neg, s'') :=
          match s' with
          | String "+" t => (false, t)
          | String "-" t => (true, t)
          | _ => (false, s')
          end in
        match readDigits 10 s'' 0 0 with
        | (e, n, EmptyString) =>
            if 0 <? n then Some (if neg then - e else e) else None
        | _ => None
        end
      else None
  end.

(** [StrUnsignedDecimalLiteral], without [Infinity] *)
Definition readUnsignedDecimal (neg : bool) (s : string) : Literal :=
  let '(int, nInt, rest) := readDigits 10 s 0 0 in
  let '(mant, nFrac, rest') :=
    match rest with
    | String "." t => readDigits 10 t int 0
    | _ => (int, 0, rest)
    end in
  if 0 <? nInt + nFrac then
    match readExponent rest' with
    | Some e => LitDecimal neg mant (e - nFrac)
    | None => LitNaN
    end
  else LitNaN.

Definition readRadix (radix : Z) (s : string) : Literal :=
  match readDigits radix s 0 0 with
  | (v, n, EmptyString) => if 0 <? n then LitDecimal false v 0 else LitNaN
  | _ => LitNaN
  end.

Definition readSigned (neg : bool) (s : string) : Literal :=
  if String.eqb s "Infinity" then LitInfinity neg else readUnsignedDecimal neg s.

(** [StringToNumber]: the literal that the trimmed string spells.  The empty
    string spells 0. *)
Definition StringNumericLiteral (s : string) : Literal :=
  match trim s with
  | EmptyString => LitDecimal false 0 0
  | String "0" (String "x" t) | String "0" (String "X" t) => readRadix 16 t
  | String "0" (String "o" t) | String "0" (String "O" t) => readRadix 8 t
  | String "0" (String "b" t) | String "0" (String "B" t) => readRadix 2 t
  | String "+" t => readSigned false t
  | String "-" t => readSigned true t
  | t => readSigned false t
  end.

(** An integer as an array method sees it: exact below [2 ^ 53], and only
    its sign above (infinite or not), since every index is clamped to the
    array. *)
Inductive Integral :=
  | Fin (z : Z)
  | Huge (neg : bool).

(** The integer part of the double nearest to [mant * 10 ^ exp10], for
    [0 <= mant].  With [n] the floor of the value and [x = n + 1 <= 2 ^ 53],
    both are doubles, so the nearest double lies between them and its integer
    part is [x] exactly when the value is at least half a unit in the last
    place below [x] (ties go to the even significand).  A value of [2 ^ 53]
    or more stands for itself: all that is used of it is that it is that
    large. *)
Definition truncNearestDouble (mant exp10 : Z) : Z :=
  if 0 <=? exp10 then mant * 10 ^ exp10
  else
    let D := 10 ^ (- exp10) in
    let n := mant / D in
    let x := n + 1 in
    if 2 ^ 53 <? x then n
    else
      let k := Z.log2 x in
      let j := if x =? 2 ^ k then 54 - k else 53 - k in
      let tieUp := (k <? 52) || (x =? 2 ^ k) || Z.even x in
      let lhs := mant * 2 ^ j in
      let rhs := (x * 2 ^ j - 1) * D in
      if (rhs <? lhs) || (tieUp && (rhs =? lhs)) then x else n.

Definition LiteralToIntegral (l : Literal) : Integral :=
  match l with
  | LitNaN => Fin 0
  | LitInfinity neg => Huge neg
  | LitDecimal neg mant exp10 =>
      let t := truncNearestDouble mant exp10 in
      if 2 ^ 53 <=? t then Huge neg else Fin (if neg then - t else t)
  end.

(** [ToIntegerOrInfinity(ToNumber(s))] *)
Definition StringToIntegral (s : string) : Integral :=
  LiteralToIntegral (StringNumericLiteral s).

(** The relative index of [Array.prototype.slice]: negative values count
    from the end, and the result is clamped to the array. *)
Definition relativeIndex (len : Z) (i : Integral) : Z :=
  match i with
  | Huge true => 0
  | Huge false => len
  | Fin z => if z <? 0 then Z.max (len + z) 0 else Z.min z len
  end.

(** [Array.prototype.slice(start, end)] where each argument is [undefined]
    or a string: an [undefined] start is 0, an [undefined] end is the
    length. *)
Definition slice {A} (l : list A) (start end_ : option string) : list A :=
  let len := Z.of_nat (List.length l) in
  let k := match start with
           | None => 0
           | Some s => relativeIndex len (StringToIntegral s)
           end in
  let final := match end_ with
               | None => len
               | Some s => relativeIndex len (StringToIntegral s)
               end in
  firstn (Z.to_nat (Z.max (final - k) 0)) (skipn (Z.to_nat k) l).

(** [array[i]] for an integer [i]: [undefined] outside the array. *)
Definition index {A} (l : list A) (i : Z) : option A :=
  if i <? 0 then None else nth_error l (Z.to_nat i).

(** A [Map] keeps its keys in the order of their first insertion; setting an
    existing key replaces the value in place. *)
Fixpoint mapSet {K V} (eqb : K -> K -> bool) (k : K) (v : V) (m : list (K * V))
  : list (K * V) :=
  match m with
  | [] => [(k, v)]
  | (k', v') :: m' =>
      if eqb k' k then (k', v) :: m' else (k', v') :: mapSet eqb k v m'
  end.

(** [new Map(entries)] *)
Definition newMap {K V} (eqb : K -> K -> bool) (entries : list (K * V)) : list (K * V) :=
  fold_left (fun m e => mapSet eqb (fst e) (snd e) m) entries [].

(** [Array.from(map.values())] *)
Definition mapValues {K V} (m : list (K * V)) : list V := List.map snd m.

End JS.

(** ** The data the gatherer produces and the audits consume *)

(** [node.declarationRange] of the CSS parser: zero-based lines, columns
    within the line. *)
Record Range := {
  startLine : Z;
  startColumn : Z;
  endLine : Z;
  endColumn : Z
}.

(** [{name, val}]: [val] is [undefined] when the declaration text has no
    colon. *)
Record Property := {
  name : string;
  val : option string
}.

(** An element of [parsedContent]. *)
Record Declaration := {
  property : Property;
  declarationRange : Range;
  selector : string
}.

(** A declaration node of the parse tree, as far as the gatherer reads it:
    [node.toString()], [node.declarationRange] and
    [parent.selectors.toString()]. *)
Record DeclarationNode := {
  nodeText : string;
  nodeRange : Range;
  parentSelectors : string
}.

(** The protocol's [CSSStyleSheetHeader], as far as the code reads it. *)
Record Header := {
  styleSheetId : string;
  origin : string;
  sourceURL : string
}.

(** The [styleHeader] object of a [CSS.styleSheetAdded] notification.  The
    gatherer adds [content] and [parsedContent] to it. *)
Record StyleHeader := {
  header : Header;
  content : option string;
  parsedContent : option (list Declaration)
}.

(** References to objects and to arrays. *)
Definition loc := nat.

(** ** styles.js *)

Module Styles.

Import JS.

(** [getCSSPropsInStyleSheet]: [parseTree] is given by the declaration nodes
    that [traverseByType('declaration', ...)] visits, in its order.  The
    destructuring [[name, val]] takes the first two pieces of the split. *)
Definition getCSSProp (node : DeclarationNode) : Declaration :=
  let pieces := List.map trim (split ":" (nodeText node)) in
  {| property := {| name := hd EmptyString pieces;
                    val := nth_error pieces 1 |};
     declarationRange := nodeRange node;
     selector := parentSelectors node |}.

Definition getCSSPropsInStyleSheet (parseTree : list DeclarationNode) : list Declaration :=
  List.map getCSSProp parseTree.

(** [this.artifact]: not assigned yet, [-1], or the array of the unique
    sheets (a new array, which nothing changes afterwards). *)
Inductive Artifact :=
  | ArtifactUnset
  | ArtifactMinusOne
  | ArtifactSheets (sheets : list loc).

(** The gatherer object.  [driver] tells whether [this.driver] is assigned
    (there is one driver); [_activeStyles] is a reference to an array. *)
Record Gatherer := {
  driver : bool;
  _activeStyles : loc;
  artifact : Artifact
}.

(** A settled promise of [endStylesCollect]. *)
Inductive Settled :=
  | Resolved (stylesheets : loc)
  | Rejected (reason : string).

(** The gatherer together with what it shares with its environment: the
    [styleHeader] objects (with the location of the next one to be
    created), the arrays of references to them, the driver (the
    commands it was sent and how many times each handler is registered on
    it), the [CSS.getStyleSheetText] requests in flight, each with the
    [styleHeader] that its continuation closes over, and the settled
    [endStylesCollect] promises whose [afterPass] reaction has not run yet. *)
Record World := {
  objects : gmap loc StyleHeader;
  nextObject : loc;
  arrays : gmap loc (list loc);
  this : Gatherer;
  commands : list string;
  addedListeners : nat;
  removedListeners : nat;
  requests : list loc;
  reactions : list Settled
}.

Definition setObjects (o : gmap loc StyleHeader) (w : World) : World :=
  {| objects := o; nextObject := nextObject w; arrays := arrays w; this := this w;
     commands := commands w;
     addedListeners := addedListeners w; removedListeners := removedListeners w;
     requests := requests w; reactions := reactions w |}.

Definition setArrays (a : gmap loc (list loc)) (w : World) : World :=
  {| objects := objects w; nextObject := nextObject w; arrays := a; this := this w;
     commands := commands w;
     addedListeners := addedListeners w; removedListeners := removedListeners w;
     requests := requests w; reactions := reactions w |}.

Definition setThis (g : Gatherer) (w : World) : World :=
  {| objects := objects w; nextObject := nextObject w; arrays := arrays w; this := g;
     commands := commands w;
     addedListeners := addedListeners w; removedListeners := removedListeners w;
     requests := requests w; reactions := reactions w |}.

Definition sendCommand (method : string) (w : World) : World :=
  {| objects := objects w; nextObject := nextObject w; arrays := arrays w; this := this w;
     commands := commands w ++ [method];
     addedListeners := addedListeners w; removedListeners := removedListeners w;
     requests := requests w; reactions := reactions w |}.

Definition setListeners (a r : nat) (w : World) : World :=
  {| objects := objects w; nextObject := nextObject w; arrays := arrays w; this := this w;
     commands := commands w;
     addedListeners := a; removedListeners := r;
     requests := requests w; reactions := reactions w |}.

Definition setRequests (q : list loc) (w : World) : World :=
  {| objects := objects w; nextObject := nextObject w; arrays := arrays w; this := this w;
     commands := commands w;
     addedListeners := addedListeners w; removedListeners := removedListeners w;
     requests := q; reactions := reactions w |}.

Definition setReactions (q : list Settled) (w : World) : World :=
  {| objects := objects w; nextObject := nextObject w; arrays := arrays w; this := this w;
     commands := commands w;
     addedListeners := addedListeners w; removedListeners := removedListeners w;
     requests := requests w; reactions := q |}.

(** Reading an array through a reference. *)
Definition deref (w : World) (l : loc) : list loc :=
  default [] (arrays w !! l).

(** [this._activeStyles], read now. *)
Definition activeStyles (w : World) : list loc :=
  deref w (_activeStyles (this w)).

(** [new Styles()]: [this._activeStyles = []] is a new array, the first of
    its store. *)
Definition constructor : World :=
  let l := 0%nat in
  {| objects := ∅;
     nextObject := 0%nat;
     arrays := {[ l := [] ]};
     this := {| driver := false; _activeStyles := l; artifact := ArtifactUnset |};
     commands := [];
     addedListeners := 0;
     removedListeners := 0;
     requests := [];
     reactions := [] |}.

(** [styleHeader.header.origin !== 'regular'].  The payload of a
    notification is an object: the reference is never a dangling one. *)
Definition notRegular (w : World) (styleHeader : loc) : bool :=
  match objects w !! styleHeader with
  | Some s => negb (String.eqb (origin (header s)) "regular")
  | None => true
  end.

(** [onStyleSheetAdded]: a sheet of another origin is left out; otherwise
    the text is requested, and the continuation waits in [requests].
    Reading [this.driver.sendCommand] throws when [this.driver] is not
    assigned. *)
Definition onStyleSheetAdded (styleHeader : loc) (w : World) : World * Completion unit :=
  if notRegular w styleHeader then (w, Return tt)
  else if negb (driver (this w)) then (w, Throw TypeError)
  else (setRequests (requests w ++ [styleHeader])
          (sendCommand "CSS.getStyleSheetText" w), Return tt).

Definition setContent (text : string) (s : StyleHeader) : StyleHeader :=
  {| header := header s; content := Some text; parsedContent := parsedContent s |}.

Definition setParsedContent (items : list Declaration) (s : StyleHeader) : StyleHeader :=
  {| header := header s; content := content s; parsedContent := Some items |}.

(** The continuation [content => {...}] of a request for [styleHeader].
    [text] is [content.text]; [tree] is what [parser.parse] returns, [None]
    when it throws: then the content is assigned, nothing is pushed, and the
    rejection of the derived promise has no handler. *)
Definition onStyleSheetText (styleHeader : loc) (text : string)
    (tree : option (list DeclarationNode)) (w : World) : World :=
  let w1 := setObjects (alter (setContent text) styleHeader (objects w)) w in
  match tree with
  | None => w1
  | Some parseTree =>
      let w2 := setObjects (alter (setParsedContent (getCSSPropsInStyleSheet parseTree))
                                  styleHeader (objects w1)) w1 in
      setArrays (alter (fun a => a ++ [styleHeader]) (_activeStyles (this w2)) (arrays w2)) w2
  end.

(** [this._activeStyles[i].header.styleSheetId === styleHeader.styleSheetId];
    the elements of the array are objects. *)
Definition hasId (o : gmap loc StyleHeader) (id : string) (s : loc) : bool :=
  match o !! s with
  | Some sheet => String.eqb (styleSheetId (header sheet)) id
  | None => false
  end.

(** The loop of [onStyleSheetRemoved]: [splice(i, 1)] at the first match,
    then [break]. *)
Fixpoint spliceFirst (o : gmap loc StyleHeader) (id : string) (a : list loc) : list loc :=
  match a with
  | [] => []
  | s :: a' => if hasId o id s then a' else s :: spliceFirst o id a'
  end.

(** [onStyleSheetRemoved]; the payload is [{styleSheetId}]. *)
Definition onStyleSheetRemoved (id : string) (w : World) : World * Completion unit :=
  (setArrays (alter (spliceFirst (objects w) id) (_activeStyles (this w)) (arrays w)) w,
   Return tt).

(** [beginStylesCollect(opts)] with [opts.driver] the driver. *)
Definition beginStylesCollect (w : World) : World :=
  let w1 := setThis {| driver := true;
                       _activeStyles := _activeStyles (this w);
                       artifact := artifact (this w) |} w in
  let w2 := sendCommand "CSS.enable" (sendCommand "DOM.enable" w1) in
  setListeners (S (addedListeners w2)) (S (removedListeners w2)) w2.

Definition noActiveStylesheets : string := "No active stylesheets were collected.".

(** [endStylesCollect]: the executor of the promise runs within the call,
    so the promise is settled when the call returns.  [driver.off] takes one
    registration of the handler away. *)
Definition endStylesCollect (w : World) : World * Settled :=
  if negb (driver (this w)) || (List.length (activeStyles w) =? 0)%nat then
    (w, Rejected noActiveStylesheets)
  else
    let w1 := setListeners (pred (addedListeners w)) (pred (removedListeners w)) w in
    (sendCommand "CSS.disable" w1, Resolved (_activeStyles (this w))).

Definition beforePass (w : World) : World := beginStylesCollect w.

(** Equality of [Map] keys on [s.content]. *)
Definition sameContent (a b : option string) : bool :=
  match a, b with
  | None, None => true
  | Some x, Some y => String.eqb x y
  | _, _ => false
  end.

(** [s.content] *)
Definition contentOf (o : gmap loc StyleHeader) (s : loc) : option string :=
  match o !! s with
  | Some sheet => content sheet
  | None => None
  end.

(** [Array.from(new Map(stylesheets.map(s => [s.content, s])).values())] *)
Definition uniqueStylesheets (o : gmap loc StyleHeader) (stylesheets : list loc) : list loc :=
  mapValues (newMap sameContent (List.map (fun s => (contentOf o s, s)) stylesheets)).

(** [afterPass] up to its [return]: the reactions are registered on the
    settled promise and run later. *)
Definition afterPass (w : World) : World :=
  let '(w1, p) := endStylesCollect w in
  setReactions (reactions w1 ++ [p]) w1.

(** The reactions that [afterPass] registers.  The fulfilment reaction
    reads the array behind the reference when it runs. *)
Definition afterPassReaction (p : Settled) (w : World) : World :=
  let a := match p with
           | Resolved stylesheets =>
               ArtifactSheets (uniqueStylesheets (objects w) (deref w stylesheets))
           | Rejected _ => ArtifactMinusOne
           end in
  setThis {| driver := driver (this w);
             _activeStyles := _activeStyles (this w);
             artifact := a |} w.

(** *** The runs of a gatherer

    What can happen to a gatherer, one event at a time.  A notification
    comes with a new [styleHeader] object and reaches a handler once for each
    time it is registered on the driver; a request settles with the text, and
    the parse of it, or is rejected. *)
Inductive Event :=
  | BeforePass
  | StyleSheetAdded (h : Header)
  | StyleSheetRemoved (id : string)
  | TextSettled (k : nat) (outcome : option (string * option (list DeclarationNode)))
  | EndStylesCollect
  | AfterPass
  | RunReaction.

(** What the caller of an event sees. *)
Inductive Outcome :=
  | Done
  | Threw (e : Error)
  | Promise (p : Settled).

Fixpoint emit (n : nat) (handler : World -> World * Completion unit) (w : World)
  : World * Completion unit :=
  match n with
  | O => (w, Return tt)
  | S n' =>
      match handler w with
      | (w', Return _) => emit n' handler w'
      | (w', Throw e) => (w', Throw e)
      end
  end.

Definition outcomeOf (c : Completion unit) : Outcome :=
  match c with
  | Return _ => Done
  | Throw e => Threw e
  end.

Definition removeNth {A} (k : nat) (l : list A) : list A :=
  firstn k l ++ skipn (S k) l.

(** The payload of a notification: a new object with the header only. *)
Definition newStyleHeader (h : Header) (w : World) : loc * World :=
  let l := nextObject w in
  (l, {| objects := <[ l := {| header := h; content := None; parsedContent := None |} ]>
                      (objects w);
         nextObject := S l;
         arrays := arrays w; this := this w; commands := commands w;
         addedListeners := addedListeners w; removedListeners := removedListeners w;
         requests := requests w; reactions := reactions w |}).

Definition step (e : Event) (w : World) : World * Outcome :=
  match e with
  | BeforePass => (beforePass w, Done)
  | StyleSheetAdded h =>
      let '(styleHeader, w0) := newStyleHeader h w in
      let '(w', c) := emit (addedListeners w0) (onStyleSheetAdded styleHeader) w0 in
      (w', outcomeOf c)
  | StyleSheetRemoved id =>
      let '(w', c) := emit (removedListeners w) (onStyleSheetRemoved id) w in
      (w', outcomeOf c)
  | TextSettled k outcome =>
      match nth_error (requests w) k with
      | None => (w, Done)
      | Some styleHeader =>
          let w' := setRequests (removeNth k (requests w)) w in
          match outcome with
          | None => (w', Done)
          | Some (text, tree) => (onStyleSheetText styleHeader text tree w', Done)
          end
      end
  | EndStylesCollect =>
      let '(w', p) := endStylesCollect w in (w', Promise p)
  | AfterPass => (afterPass w, Done)
  | RunReaction =>
      match reactions w with
      | [] => (w, Done)
      | p :: rest => (afterPassReaction p (setReactions rest w), Done)
      end
  end.

Definition run (events : list Event) (w : World) : World :=
  fold_left (fun w e => fst (step e w)) events w.

End Styles.

(** ** uses-new-flexbox.js *)

Module UsesNewFlexBox.

Import JS.

(** [item.property.name === propName] *)
Definition strictEquals (s : string) (v : option string) : bool :=
  match v with
  | Some s' => String.eqb s s'
  | None => false
  end.

(** The callback of the inner [filter].  [usedVal] is computed first for
    every item: reading [indexOf] of an [undefined] [val] throws. *)
Definition usesProperty (propName propVal : option string) (item : Declaration)
  : Completion bool :=
  let usedName := strictEquals (name (property item)) propName in
  match val (property item) with
  | None => Throw TypeError
  | Some v =>
      let usedVal := indexOf v propVal =? 0 in
      if truthy propName && negb (truthy propVal) then Return usedName
      else if negb (truthy propName) && truthy propVal then Return usedVal
      else if truthy propName && truthy propVal then Return (usedName && usedVal)
      else Return false
  end.

(** The objects that the elements of [stylesheets] refer to. *)
Abbreviation Store := (gmap loc StyleHeader).

(** The callback of the outer [filter]: [s.parsedContent] is assigned on
    the object that [s] refers to. *)
Definition filterSheet (callback : Declaration -> Completion bool) (s : loc) (st : Store)
  : Store * Completion bool :=
  match st !! s with
  | None => (st, Throw TypeError)
  | Some sheet =>
      match parsedContent sheet with
      | None => (st, Throw TypeError)
      | Some items =>
          match filter callback items with
          | Throw e => (st, Throw e)
          | Return items' =>
              (<[ s := {| header := header sheet;
                          content := content sheet;
                          parsedContent := Some items' |} ]> st,
               Return (0 <? List.length items')%nat)
          end
      end
  end.

(** The outer [filter], over the copy [stylesheets.slice(0)] of the array of
    references; the store is threaded through the callbacks. *)
Fixpoint filterSheets (callback : Declaration -> Completion bool) (l : list loc) (st : Store)
  : Store * Completion (list loc) :=
  match l with
  | [] => (st, Return [])
  | s :: l' =>
      match filterSheet callback s st with
      | (st1, Throw e) => (st1, Throw e)
      | (st1, Return keep) =>
          match filterSheets callback l' st1 with
          | (st2, Throw e) => (st2, Throw e)
          | (st2, Return rest) => (st2, Return (if keep then s :: rest else rest))
          end
      end
  end.

Definition stylesheetsThatUsedProperty (stylesheets : list loc)
    (propName propVal : option string) (st : Store) : Store * Completion (list loc) :=
  if negb (truthy propName) && negb (truthy propVal) then (st, Return [])
  else filterSheets (usesProperty propName propVal) stylesheets st.

(** The [rule] of [getFormattedStyleContent].  In the branch of a range over
    several lines, [startLine] and [endLine] are the lines themselves (or
    [undefined]) and are the arguments of [slice]; [reduce] pushes, for each
    line of the slice, its substring between the two columns. *)
Definition rule (content : string) (declarationRange : Range) : Completion string :=
  let lines := split LF content in
  let lineNum := startLine declarationRange in
  let start := startColumn declarationRange in
  let end_ := endColumn declarationRange in
  if startLine declarationRange =? endLine declarationRange then
    match index lines lineNum with
    | None => Throw TypeError
    | Some line => Return (substring line start end_)
    end
  else
    let startLine := index lines (startLine declarationRange) in
    let endLine := index lines (endLine declarationRange) in
    Return (join newline
              (List.map (fun line => substring line (startColumn declarationRange)
                                                 (endColumn declarationRange))
                        (slice lines startLine endLine))).

Definition getFormattedStyleContent (content : string) (parsedContent : Declaration)
  : Completion string :=
  let declarationRange := declarationRange parsedContent in
  let lineNum := startLine declarationRange in
  let start := startColumn declarationRange in
  let end_ := endColumn declarationRange in
  bind (rule content declarationRange) (fun rule =>
  Return (newline ++ selector parsedContent ++ " {" ++
          newline ++ "  " ++ rule ++
          newline ++ "} (line: " ++ NumberToString lineNum ++
          ", row: " ++ NumberToString start ++
          ", col: " ++ NumberToString end_ ++ ")")%string).

End UsesNewFlexBox.

(** ** The sibling audit (will-change), whose helpers are copies *)

Module WillChange.

Import JS.

(** The callback of [getPropertyUse] has no final [return]: it yields
    [undefined], which [filter] takes as false. *)
Definition usesProperty (opt_name opt_val : option string) (item : Declaration)
  : Completion bool :=
  let usedName := UsesNewFlexBox.strictEquals (name (property item)) opt_name in
  match val (property item) with
  | None => Throw TypeError
  | Some v =>
      let usedVal := indexOf v opt_val =? 0 in
      if truthy opt_name && negb (truthy opt_val) then Return usedName
      else if negb (truthy opt_name) && truthy opt_val then Return usedVal
      else if truthy opt_name && truthy opt_val then Return (usedName && usedVal)
      else Return (truthy None)
  end.

Definition getPropertyUse (stylesheets : list loc) (opt_name opt_val : option string)
    (st : gmap loc StyleHeader) : gmap loc StyleHeader * Completion (list loc) :=
  if negb (truthy opt_name) && negb (truthy opt_val) then (st, Return [])
  else UsesNewFlexBox.filterSheets (usesProperty opt_name opt_val) stylesheets st.

Definition getFormattedStyleContent := UsesNewFlexBox.getFormattedStyleContent.

End WillChange.

(** ** The audits: [audit]

    What an audit hands to [generateAuditResult], which belongs to the base
    class [Audit] and is taken as given.  [rawValue] is [-1] or a boolean;
    [extendedInfo], when present, is the URL list (its formatter is the
    constant [URLLIST]). *)

Inductive RawValue :=
  | RawMinusOne
  | RawBoolean (b : bool).

Record UrlListItem := {
  url : string;
  misc : string
}.

Record AuditResult := {
  rawValue : RawValue;
  debugString : option string;
  extendedInfo : option (list UrlListItem)
}.

Module AuditBody.

Import JS.

Section WithHelpers.

(** The two helpers of the audit's file, and [generateAuditResult]. *)
Variable propertyUse :
  list loc -> option string -> option string -> gmap loc StyleHeader ->
  gmap loc StyleHeader * Completion (list loc).
Variable formattedStyleContent : string -> Declaration -> Completion string.
Variable Result : Type.
Variable generateAuditResult : AuditResult -> Result.

(** [sheet.parsedContent.forEach(props => urlList.push({...}))]: the entries
    pushed for one sheet.  [sheet.content] is an argument of the helper,
    which reads [content.split]. *)
Fixpoint pushProps (sourceURL : string) (content : option string)
    (items : list Declaration) : Completion (list UrlListItem) :=
  match items with
  | [] => Return []
  | props :: items' =>
      match content with
      | None => Throw TypeError
      | Some text =>
          bind (formattedStyleContent text props) (fun formatted =>
          bind (pushProps sourceURL content items') (fun rest =>
          Return ({| url := sourceURL; misc := formatted |} :: rest)))
      end
  end.

(** [sheetsUsingDisplayBox.forEach(sheet => ...)]: the whole [urlList]. *)
Fixpoint pushSheets (st : gmap loc StyleHeader) (sheets : list loc)
  : Completion (list UrlListItem) :=
  match sheets with
  | [] => Return []
  | s :: sheets' =>
      match st !! s with
      | None => Throw TypeError
      | Some sheet =>
          match parsedContent sheet with
          | None => Throw TypeError
          | Some items =>
              bind (pushProps (sourceURL (header sheet)) (content sheet) items)
                (fun entries =>
              bind (pushSheets st sheets') (fun rest =>
              Return (entries ++ rest)))
          end
      end
  end.

Definition didNotRun : AuditResult :=
  {| rawValue := RawMinusOne;
     debugString := Some "Styles gatherer did not run";
     extendedInfo := None |}.

(** [audit(artifacts)], given [artifacts.Styles]. *)
Definition audit (artifactsStyles : Styles.Artifact) (st : gmap loc StyleHeader)
  : gmap loc StyleHeader * Completion Result :=
  match artifactsStyles with
  | Styles.ArtifactUnset | Styles.ArtifactMinusOne =>
      (st, Return (generateAuditResult didNotRun))
  | Styles.ArtifactSheets stylesheets =>
      match propertyUse stylesheets (Some "display") (Some "box") st with
      | (st', Throw e) => (st', Throw e)
      | (st', Return sheetsUsingDisplayBox) =>
          (st',
           bind (pushSheets st' sheetsUsingDisplayBox) (fun urlList =>
           Return (generateAuditResult
                     {| rawValue :=
                          RawBoolean (List.length sheetsUsingDisplayBox =? 0)%nat;
                        debugString := None;
                        extendedInfo := Some urlList |})))
      end
  end.

End WithHelpers.

End AuditBody.

(** [UsesNewFlexBoxAudit.audit] *)
Module UsesNewFlexBoxAudit.

Definition audit {Result : Type} (generateAuditResult : AuditResult -> Result) :=
  AuditBody.audit UsesNewFlexBox.stylesheetsThatUsedProperty
                  UsesNewFlexBox.getFormattedStyleContent
                  Result generateAuditResult.

End UsesNewFlexBoxAudit.

(** [WillChangeAudit.audit], the same text over the copies of the helpers. *)
Module WillChangeAudit.

Definition audit {Result : Type} (generateAuditResult : AuditResult -> Result) :=
  AuditBody.audit WillChange.getPropertyUse
                  WillChange.getFormattedStyleContent
                  Result generateAuditResult.

End WillChangeAudit.

(** ** The commands that list the audits and the trace categories

    [lighthouse-cli/commands/list-audits.ts] and its sibling for the trace
    categories write one JSON text to the standard output and exit with
    code 0.  [getAuditList()] and [lighthouse.traceCategories] are not
    functions of these files: the lists they give are arguments here, lists
    of strings as [lighthouse-core] builds them. *)

Module JSON.

Import JS.

Definition quoteMark : ascii := "034".
Definition backslash : ascii := "092".

Definition hexDigit (n : N) : ascii :=
  ascii_of_N (if (n <? 10)%N then 48 + n else 87 + n).

(** [QuoteJSONString] on one code unit. *)
Definition quoteUnit (c : ascii) : string :=
  let n := N_of_ascii c in
  if (n =? 8)%N then String backslash "b"
  else if (n =? 9)%N then String backslash "t"
  else if (n =? 10)%N then String backslash "n"
  else if (n =? 12)%N then String backslash "f"
  else if (n =? 13)%N then String backslash "r"
  else if (n =? 34)%N then String backslash (String quoteMark "")
  else if (n =? 92)%N then String backslash (String backslash "")
  else if (n <? 32)%N then
    String backslash
      (String "u" (String "0" (String "0"
         (String (hexDigit (n / 16)) (String (hexDigit (n mod 16)) "")))))
  else String c "".

Fixpoint quoteUnits (s : string) : string :=
  match s with
  | EmptyString => EmptyString
  | String c rest => (quoteUnit c ++ quoteUnits rest)%string
  end.

Definition quote (s : string) : string :=
  String quoteMark (quoteUnits s ++ String quoteMark "")%string.

(** [SerializeJSONArray] on an array of strings: [indent] is the
    indentation of the array's elements, [stepback] the one of its closing
    bracket; with an empty [gap] there is no line break. *)
Definition serializeArray (gap : bool) (stepback indent : string) (value : list string)
  : string :=
  let partial := List.map quote value in
  match partial with
  | [] => "[]"
  | _ =>
    if gap then
      ("[" ++ newline ++ indent ++
       join ("," ++ newline ++ indent) partial ++
       newline ++ stepback ++ "]")%string
    else ("[" ++ join "," partial ++ "]")%string
  end.

(** [JSON.stringify({key: value}, null, space)] for an array of strings
    under one key; [space] is [0] (or absent) or [2]. *)
Definition stringify (key : string) (value : list string) (space : nat) : string :=
  match space with
  | O => ("{" ++ quote key ++ ":" ++ serializeArray false "" "" value ++ "}")%string
  | _ =>
    let gap := "  "%string in
    ("{" ++ newline ++ gap ++
     quote key ++ ": " ++ serializeArray true gap (gap ++ gap) value ++
     newline ++ "}")%string
  end.

End JSON.

Record Process := {
  stdout : string;
  exitCode : option Z
}.

Module Cli.

Import JS.

(** [i.replace(/\.js$/, '')]: the pattern matches at the one place where
    the rest of the string is [.js]. *)
Fixpoint replaceJsExtension (i : string) : string :=
  match i with
  | EmptyString => EmptyString
  | String c rest =>
    if String.eqb i ".js" then EmptyString else String c (replaceJsExtension rest)
  end.

Definition ListAudits (getAuditList : list string) : Process :=
  let audits := List.map replaceJsExtension getAuditList in
  {| stdout := JSON.stringify "audits" audits 2;
     exitCode := Some 0 |}.


End Cli.

(** ** The two operations as the specification words them

    Used only to compare with the code. *)

Module Specification.

Import JS.

(** "derived by splitting the raw declaration text on the first colon",
    "both trimmed": the name is the text before the first colon, the value
    everything after it. *)
Fixpoint splitOnFirstColon (text : string) : string * option string :=
  match text with
  | EmptyString => (EmptyString, None)
  | String c text' =>
      if Ascii.eqb c ":" then (EmptyString, Some text')
      else let '(before, after) := splitOnFirstColon text' in
           (String c before, after)
  end.

Definition propertyOf (text : string) : Property :=
  let '(before, after) := splitOnFirstColon text in
  {| name := trim before; val := option_map trim after |}.

(** "the substring of the start line from startColumn to the start line's
    end, each full intermediate line, and the substring of the end line from
    its beginning to endColumn", "joined by line breaks"; lines are taken by
    their numbers.  [None] when a line number is outside the content. *)
Definition extractMultiLine (content : string) (range : Range) : option string :=
  let lines := split LF content in
  match index lines (startLine range), index lines (endLine range) with
  | Some first, Some last =>
      let between :=
        firstn (Z.to_nat (endLine range - startLine range - 1))
               (skipn (Z.to_nat (startLine range + 1)) lines) in
      Some (join newline
              ([substring first (startColumn range) (Z.of_nat (String.length first))]
               ++ between
               ++ [substring last 0 (endColumn range)]))
  | _, _ => None
  end.

End Specification.

(** ** Concrete data used in the examples *)

Module Fixture.

Definition range (sl sc el ec : Z) : Range :=
  {| startLine := sl; startColumn := sc; endLine := el; endColumn := ec |}.

Definition decl (n v : string) (r : Range) : Declaration :=
  {| property := {| name := n; val := Some v |};
     declarationRange := r;
     selector := "a" |}.

(** Four lines; the declaration goes from line 1, column 2 to line 2,
    column 7. *)
Definition multiLineCss : string :=
  "a {" ++ JS.newline ++ "  display:" ++ JS.newline ++ "    box;" ++ JS.newline ++ "}".

Definition multiLineRange : Range := range 1 2 2 7.

Definition displayBox : Declaration := decl "display" "box" (range 0 4 0 16).
Definition colorRed : Declaration := decl "color" "red" (range 0 18 0 28).

Definition sheetHeader (id : string) : Header :=
  {| styleSheetId := id; origin := "regular"; sourceURL := "http://example.com/" ++ id |}.

Definition sheet : StyleHeader :=
  {| header := sheetHeader "1";
     content := Some "a { display: box; color: red; }";
     parsedContent := Some [displayBox; colorRed] |}.

Definition urlNode : DeclarationNode :=
  {| nodeText := "background: url(http://a.b/c.png)";
     nodeRange := range 0 4 0 37;
     parentSelectors := "a" |}.

(** A declaration node whose text has no colon. *)
Definition bareNode : DeclarationNode :=
  {| nodeText := "display";
     nodeRange := range 0 4 0 11;
     parentSelectors := "a" |}.

(** A sheet one of whose declarations has no value. *)
Definition bareSheet : StyleHeader :=
  {| header := sheetHeader "1";
     content := Some "a { color: red; display }";
     parsedContent := Some [colorRed; Styles.getCSSProp bareNode] |}.

(** The record that the gatherer pushes for the sheet [id] when its text is
    [text] and has no declaration. *)
Definition added (id : string) (text : string) : StyleHeader :=
  {| header := sheetHeader id; content := Some text; parsedContent := Some [] |}.

Definition emptyRule : string * option (list DeclarationNode) := ("a{}", Some []).
Definition otherRule : string * option (list DeclarationNode) := ("b{}", Some []).

End Fixture.

(** ** Predicates of the statements *)

(** The entry [(k, v)] is the last one of [entries] with the key [k]. *)
Definition lastWithKey {K V} (entries : list (K * V)) (k : K) (v : V) : Prop :=
  exists before after,
    entries = before ++ (k, v) :: after /\
    forall e, In e after -> fst e <> k.

(** [s] is the last reference of [stylesheets] to a record with its
    content. *)
Definition lastWithContent (o : gmap loc StyleHeader) (stylesheets : list loc) (s : loc)
  : Prop :=
  exists before after,
    stylesheets = before ++ s :: after /\
    forall s', In s' after -> Styles.contentOf o s' <> Styles.contentOf o s.

(** A record that may be in the active collection. *)
Definition resolved (s : StyleHeader) : Prop :=
  origin (header s) = "regular" /\ is_Some (content s) /\ is_Some (parsedContent s).

(** The reference [s] points to an object of [o], and [P] holds of it. *)
Definition refersTo (P : StyleHeader -> Prop) (o : gmap loc StyleHeader) (s : loc) : Prop :=
  exists sheet, o !! s = Some sheet /\ P sheet.

(** From [o] to [o'] every object stays, with its header, and what was
    set in it stays set. *)
Definition extends (o o' : gmap loc StyleHeader) : Prop :=
  forall s sheet,
    o !! s = Some sheet ->
    exists sheet',
      o' !! s = Some sheet' /\
      header sheet' = header sheet /\
      (is_Some (content sheet) -> is_Some (content sheet')) /\
      (is_Some (parsedContent sheet) -> is_Some (parsedContent sheet')).

(** What every run of a gatherer keeps: the reference of the gatherer
    points to an array of references to resolved records, the requests in
    flight are for regular sheets, a handler is registered only once the
    driver is assigned, and the locations from the next one on are free. *)
Record Invariant (w : Styles.World) : Prop := {
  inv_active :
    exists a, Styles.arrays w !! Styles._activeStyles (Styles.this w) = Some a /\
              Forall (refersTo resolved (Styles.objects w)) a;
  inv_requests :
    Forall (refersTo (fun s => origin (header s) = "regular") (Styles.objects w))
           (Styles.requests w);
  inv_listeners :
    (0 < Styles.addedListeners w)%nat -> Styles.driver (Styles.this w) = true;
  inv_next :
    forall l, (Styles.nextObject w <= l)%nat -> Styles.objects w !! l = None
}.

(** The predicate of a query on a declaration: the name is the queried
    name, the value starts with the queried value, or both, by what the query
    gives; a query that gives neither matches nothing. *)
Definition matchesQuery (propName propVal : option string) (item : Declaration) : bool :=
  match val (property item) with
  | None => false
  | Some v =>
      match JS.truthy propName, JS.truthy propVal with
      | true, false => String.eqb (name (property item)) (JS.ToString propName)
      | false, true => String.prefix (JS.ToString propVal) v
      | true, true => String.eqb (name (property item)) (JS.ToString propName)
                      && String.prefix (JS.ToString propVal) v
      | false, false => false
      end
  end.

(** A sheet with the declarations that match, and nothing else changed. *)
Definition filtered (propName propVal : option string) (sheet : StyleHeader) : StyleHeader :=
  {| header := header sheet;
     content := content sheet;
     parsedContent := option_map (List.filter (matchesQuery propName propVal))
                                 (parsedContent sheet) |}.

(** The sheet that [s] refers to has a declaration that matches. *)
Definition hasMatch (propName propVal : option string) (st : gmap loc StyleHeader) (s : loc)
  : bool :=
  match st !! s with
  | Some sheet =>
      match parsedContent sheet with
      | Some items =>
          (0 <? List.length (List.filter (matchesQuery propName propVal) items))%nat
      | None => false
      end
  | None => false
  end.

(** A sheet as the gatherer produces it for a parser whose declarations all
    have a colon: the declarations are set and each has a value. *)
Definition allValues (sheet : StyleHeader) : Prop :=
  exists items,
    parsedContent sheet = Some items /\
    Forall (fun item => val (property item) <> None) items.

(** The [styleSheetId] of the record that [s] refers to. *)
Definition idOf (o : gmap loc StyleHeader) (s : loc) : option string :=
  match o !! s with
  | Some sheet => Some (styleSheetId (header sheet))
  | None => None
  end.

(** How many times [beforePass] is called in a run. *)
Definition beginCount (events : list Styles.Event) : nat :=
  List.length (List.filter (fun e => match e with Styles.BeforePass => true | _ => false end)
                           events).

(** The elements of a list of contents, each at its first occurrence. *)
Fixpoint firstOccurrences (l : list (option string)) : list (option string) :=
  match l with
  | [] => []
  | x :: l' =>
      x :: List.filter (fun y => negb (Styles.sameContent y x)) (firstOccurrences l')
  end.

(** The code unit [c] occurs in [s]; how many times it does. *)
Fixpoint occurrences (c : ascii) (s : string) : nat :=
  match s with
  | EmptyString => 0
  | String c' s' => (if Ascii.eqb c' c then 1 else 0) + occurrences c s'
  end.

(** The declarations of the record that [s] refers to that match a query,
    and the [sourceURL] of the record. *)
Definition matchesOf (propName propVal : option string) (st : gmap loc StyleHeader) (s : loc)
  : list Declaration :=
  match st !! s with
  | Some sheet =>
      match parsedContent sheet with
      | Some items => List.filter (matchesQuery propName propVal) items
      | None => []
      end
  | None => []
  end.

(** The declarations of the record that [s] refers to. *)
Definition itemsOf (st : gmap loc StyleHeader) (s : loc) : list Declaration :=
  match st !! s with
  | Some sheet => default [] (parsedContent sheet)
  | None => []
  end.

Definition sourceOf (st : gmap loc StyleHeader) (s : loc) : string :=
  match st !! s with
  | Some sheet => sourceURL (header sheet)
  | None => EmptyString
  end.

(** The first and the last code unit of a string. *)
Definition firstUnit (s : string) : option ascii :=
  match s with
  | EmptyString => None
  | String c _ => Some c
  end.

Fixpoint lastUnit (s : string) : option ascii :=
  match s with
  | EmptyString => None
  | String c EmptyString => Some c
  | String _ s' => lastUnit s'
  end.

(** [s] neither starts nor ends with white space. *)
Definition trimmed (s : string) : Prop :=
  (forall c, firstUnit s = Some c -> JS.isWhiteSpace c = false) /\
  (forall c, lastUnit s = Some c -> JS.isWhiteSpace c = false).

(** Every declaration of the parse trees that the events deliver has a
    colon in its text. *)
Definition declarationsHaveColons (events : list Styles.Event) : Prop :=
  forall k text parseTree node,
    In (Styles.TextSettled k (Some (text, Some parseTree))) events ->
    In node parseTree ->
    (0 < occurrences ":" (nodeText node))%nat.

(** Every record of the store whose declarations are set has a value in
    each of them. *)
Definition storeHasValues (o : gmap loc StyleHeader) : Prop :=
  forall s sheet items,
    o !! s = Some sheet ->
    parsedContent sheet = Some items ->
    Forall (fun item => val (property item) <> None) items.

(** The declaration has a value, and the value starts with [needle]. *)
Definition valueHasPrefix (needle : string) (item : Declaration) : bool :=
  match val (property item) with
  | Some v => String.prefix needle v
  | None => false
  end.


(** The lines of the elements of an indented JSON array of strings: one
    element a line, four spaces before it and a comma after each but the
    last. *)
Fixpoint elementLines (elements : list string) : list string :=
  match elements with
  | [] => []
  | [x] => [("    " ++ JSON.quote x)%string]
  | x :: rest => ("    " ++ JSON.quote x ++ ",")%string :: elementLines rest
  end.

(** * Properties *)

(** ** The library functions on examples *)

Section LibraryExamples.

Import JS.

Example split_examples :
  split ":" "a: b:c" = ["a"; " b"; "c"]%string /\
  split ":" "" = [""%string] /\
  split LF ("x" ++ newline) = ["x"; ""]%string.
Proof. repeat split. Qed.

Example trim_examples :
  trim "  a b  " = "a b"%string /\ trim "   " = ""%string /\
  trim (newline ++ " red") = "red"%string.
Proof. repeat split. Qed.

Example substring_examples :
  substring "hello" 1 3 = "el"%string /\
  substring "hello" 3 1 = "el"%string /\
  substring "hello" (-2) 99 = "hello"%string.
Proof. repeat split. Qed.

Example indexOf_examples :
  indexOf "inline-flex" (Some "fle"%string) = 7 /\
  indexOf "flex" (Some "fle"%string) = 0 /\
  indexOf "abc" None = -1 /\
  indexOf "undefined" None = 0.
Proof. repeat split. Qed.

(** Strings as the arguments of [slice]: a literal is read as its number,
    anything else as 0; the literal nearest below 1 that rounds to the
    double 1 counts as 1. *)
Example StringToIntegral_examples :
  StringToIntegral "  display:" = Fin 0 /\
  StringToIntegral "" = Fin 0 /\
  StringToIntegral " 12 " = Fin 12 /\
  StringToIntegral "-3" = Fin (-3) /\
  StringToIntegral "1e2" = Fin 100 /\
  StringToIntegral "0x1F" = Fin 31 /\
  StringToIntegral "2.5" = Fin 2 /\
  StringToIntegral "0.9999999999999999" = Fin 0 /\
  StringToIntegral "0.99999999999999999999" = Fin 1 /\
  StringToIntegral "Infinity" = Huge false /\
  StringToIntegral "9007199254740993" = Huge false.
Proof. repeat split. Qed.

Example slice_examples :
  slice [1; 2; 3; 4; 5] (Some "1"%string) (Some "-1"%string) = [2; 3; 4] /\
  slice [1; 2; 3] None None = [1; 2; 3] /\
  slice [1; 2; 3] (Some "a {"%string) (Some "}"%string) = [] /\
  slice [1; 2; 3] (Some "a {"%string) (Some "2"%string) = [1; 2].
Proof. repeat split. Qed.

Example Map_examples :
  mapValues (newMap String.eqb [("a", 1); ("b", 2); ("a", 3)]%string) = [3; 2].
Proof. reflexivity. Qed.

End LibraryExamples.

(** ** The [Map] of [afterPass] *)

Section MapFacts.

Context {K V : Type} (eqb : K -> K -> bool).
Hypothesis eqb_eq : forall a b, eqb a b = true <-> a = b.

Lemma mapSet_keys (k : K) (v : V) (m : list (K * V)) :
  In k (List.map fst m) ->
  List.map fst (JS.mapSet eqb k v m) = List.map fst m.
Proof.
  induction m as [|[k' v'] m IH]; simpl; intros Hin; [tauto|].
  destruct (eqb k' k) eqn:E; simpl; [reflexivity|].
  destruct Hin as [->|Hin].
  - assert (eqb k k = true) by (apply eqb_eq; reflexivity). congruence.
  - rewrite IH by assumption. reflexivity.
Qed.

Lemma mapSet_keys_fresh (k : K) (v : V) (m : list (K * V)) :
  ~ In k (List.map fst m) ->
  JS.mapSet eqb k v m = m ++ [(k, v)].
Proof.
  induction m as [|[k' v'] m IH]; simpl; intros Hin; [reflexivity|].
  destruct (eqb k' k) eqn:E.
  - apply eqb_eq in E. tauto.
  - rewrite IH by tauto. reflexivity.
Qed.

Lemma mapSet_NoDup (k : K) (v : V) (m : list (K * V)) :
  List.NoDup (List.map fst m) -> List.NoDup (List.map fst (JS.mapSet eqb k v m)).
Proof.
  intros Hnd.
  destruct (existsb (fun k' => eqb k' k) (List.map fst m)) eqn:E.
  - apply existsb_exists in E as (k' & Hin & Hk). apply eqb_eq in Hk. subst k'.
    rewrite mapSet_keys; assumption.
  - assert (~ In k (List.map fst m)) as Hfresh.
    { intros Hin. assert (existsb (fun k' => eqb k' k) (List.map fst m) = true); [|congruence].
      apply existsb_exists. exists k. split; [assumption | apply eqb_eq; reflexivity]. }
    rewrite mapSet_keys_fresh by assumption.
    rewrite List.map_app. simpl.
    apply List.NoDup_app; [assumption | repeat constructor; simpl; tauto | ].
    intros a Ha [<-|[]]. tauto.
Qed.

Lemma mapSet_In (k : K) (v : V) (m : list (K * V)) (k' : K) (v' : V) :
  List.NoDup (List.map fst m) ->
  In (k', v') (JS.mapSet eqb k v m) <->
  (k' = k /\ v' = v) \/ (k' <> k /\ In (k', v') m).
Proof.
  induction m as [|[k0 v0] m IH]; simpl; intros Hnd.
  - split.
    + intros [H|[]]. left. split; congruence.
    + intros [[-> ->]|[_ []]]. left. reflexivity.
  - apply List.NoDup_cons_iff in Hnd as [Hk0 Hnd].
    destruct (eqb k0 k) eqn:E; simpl.
    + apply eqb_eq in E. subst k0. split.
      * intros [H|Hin]; [left; split; congruence|].
        right. split; [|right; assumption].
        intros ->. apply Hk0. apply in_map_iff. exists (k, v'). split; [reflexivity|assumption].
      * intros [[-> ->]|[Hne [H|Hin]]]; [left; reflexivity | | right; assumption].
        exfalso. apply Hne. congruence.
    + assert (k0 <> k) as Hne by (intros ->; rewrite (proj2 (eqb_eq k k) eq_refl) in E; discriminate).
      rewrite (IH Hnd). split.
      * intros [H|[H|H]]; [right; split; [congruence|left; assumption] | left; assumption | right; tauto].
      * intros [H|[H [H'|Hin]]]; [right; left; assumption | left; assumption | right; right; tauto].
Qed.

Lemma newMap_snoc (entries : list (K * V)) (e : K * V) :
  JS.newMap eqb (entries ++ [e]) = JS.mapSet eqb (fst e) (snd e) (JS.newMap eqb entries).
Proof. unfold JS.newMap. rewrite fold_left_app. reflexivity. Qed.

Lemma newMap_NoDup (entries : list (K * V)) :
  List.NoDup (List.map fst (JS.newMap eqb entries)).
Proof.
  induction entries as [|e entries IH] using rev_ind.
  - constructor.
  - rewrite newMap_snoc. apply mapSet_NoDup. assumption.
Qed.

(** A [Map] built from a list of entries holds, for each key, the last
    entry with that key, and nothing else. *)
Lemma newMap_In (entries : list (K * V)) (k : K) (v : V) :
  In (k, v) (JS.newMap eqb entries) <-> lastWithKey entries k v.
Proof.
  revert k v. induction entries as [|[k0 v0] entries IH] using rev_ind; intros k v.
  - simpl. split; [tauto|]. intros (before & after & H & _).
    destruct before; discriminate.
  - rewrite newMap_snoc. simpl. rewrite mapSet_In by apply newMap_NoDup.
    rewrite IH. split.
    + intros [[-> ->]|[Hne (before & after & -> & Hafter)]].
      * exists entries, []. split; [reflexivity|]. intros e [].
      * exists before, (after ++ [(k0, v0)]). split.
        { rewrite <- app_assoc. reflexivity. }
        intros e [Hin|[<-|[]]]%in_app_iff; [apply Hafter; assumption | simpl; congruence].
    + intros (before & after & Heq & Hafter).
      destruct after as [|x after _] using rev_ind.
      * apply app_inj_tail in Heq as [_ [= -> ->]]. left. split; reflexivity.
      * rewrite app_comm_cons, app_assoc in Heq.
        apply app_inj_tail in Heq as [-> <-].
        right. split.
        { intros ->. apply (Hafter (k0, v0)); [|reflexivity].
          apply in_app_iff. right. left. reflexivity. }
        exists before, after. split; [reflexivity|].
        intros e He. apply Hafter. apply in_app_iff. left. assumption.
Qed.

End MapFacts.

(** ** The gatherer: removal of duplicates *)

Section Deduplication.

Import Styles JS.

Variable o : gmap loc StyleHeader.

Lemma sameContent_eq (a b : option string) : sameContent a b = true <-> a = b.
Proof.
  destruct a as [x|], b as [y|]; simpl; try (split; congruence).
  rewrite String.eqb_eq. split; congruence.
Qed.

Lemma uniqueStylesheets_In (stylesheets : list loc) (s : loc) :
  In s (uniqueStylesheets o stylesheets) <-> lastWithContent o stylesheets s.
Proof.
  unfold uniqueStylesheets, mapValues, lastWithContent. rewrite in_map_iff. split.
  - intros ([k s0] & Hs & Hin). simpl in Hs. subst s0.
    apply (newMap_In sameContent sameContent_eq) in Hin as (b & a & Heq & Hafter).
    apply List.map_eq_app in Heq as (before & rest & -> & <- & Hrest).
    apply List.map_eq_cons in Hrest as (s0 & after & -> & [= <- <-] & <-).
    exists before, after. split; [reflexivity|].
    intros s' Hs'. apply (Hafter (contentOf o s', s')).
    apply in_map_iff. exists s'. split; [reflexivity|assumption].
  - intros (before & after & -> & Hafter).
    exists (contentOf o s, s). split; [reflexivity|].
    apply (newMap_In sameContent sameContent_eq).
    exists (List.map (fun s => (contentOf o s, s)) before),
           (List.map (fun s => (contentOf o s, s)) after).
    split.
    + rewrite List.map_app. reflexivity.
    + intros e (s' & <- & Hs')%in_map_iff. simpl. apply Hafter. assumption.
Qed.

Lemma uniqueStylesheets_NoDup (stylesheets : list loc) :
  List.NoDup (List.map (contentOf o) (uniqueStylesheets o stylesheets)).
Proof.
  unfold uniqueStylesheets, mapValues.
  set (entries := List.map (fun s => (contentOf o s, s)) stylesheets).
  rewrite List.map_map.
  erewrite List.map_ext_in; [apply (newMap_NoDup sameContent sameContent_eq entries)|].
  intros [k s] Hin. simpl.
  apply (newMap_In sameContent sameContent_eq) in Hin as (b & a & Heq & _).
  assert (In (k, s) entries) as Hentry.
  { rewrite Heq. apply in_app_iff. right. left. reflexivity. }
  apply in_map_iff in Hentry as (s0 & [= <- <-] & _). reflexivity.
Qed.

(** Every content of the input has a record in the result. *)
Lemma uniqueStylesheets_complete (stylesheets : list loc) (s : loc) :
  In s stylesheets ->
  exists s', In s' (uniqueStylesheets o stylesheets) /\ contentOf o s' = contentOf o s.
Proof.
  intros Hin.
  induction stylesheets as [|x l IH] using rev_ind; [destruct Hin|].
  destruct (sameContent (contentOf o x) (contentOf o s)) eqn:E.
  - apply sameContent_eq in E. exists x. split; [|assumption].
    apply uniqueStylesheets_In. exists l, []. split; [reflexivity|]. intros s' [].
  - assert (contentOf o x <> contentOf o s) as Hne.
    { intros H. apply sameContent_eq in H. congruence. }
    apply in_app_iff in Hin as [Hin|[->|[]]]; [|congruence].
    destruct (IH Hin) as (s' & Hs' & Hc). exists s'. split; [|assumption].
    apply uniqueStylesheets_In in Hs' as (before & after & -> & Hafter).
    apply uniqueStylesheets_In. exists before, (after ++ [x]). split.
    + rewrite <- app_assoc. reflexivity.
    + intros y [Hy|[<-|[]]]%in_app_iff; [apply Hafter; assumption | congruence].
Qed.

End Deduplication.

(** C3.  When the fulfilment reaction of [afterPass] runs on the collection
    that [endStylesCollect] resolved with, the artifact it stores has at most
    one record for each content, every content of the collection is kept
    once, and the records it holds are exactly those that are the last of the
    collection (which is in the order of resolution) with their content: the
    earlier records with the same content are not in it. *)
Theorem C3_unique_stylesheets_keep_last (w : Styles.World) (r : loc) :
  let stylesheets := Styles.deref w r in
  let contentOf := Styles.contentOf (Styles.objects w) in
  exists result,
    Styles.artifact (Styles.this (Styles.afterPassReaction (Styles.Resolved r) w))
      = Styles.ArtifactSheets result /\
    List.NoDup (List.map contentOf result) /\
    (forall s, In s stylesheets -> exists s', In s' result /\ contentOf s' = contentOf s) /\
    (forall s, In s result <->
       exists before after,
         stylesheets = before ++ s :: after /\
         forall s', In s' after -> contentOf s' <> contentOf s).
Proof.
  intros stylesheets contentOf.
  exists (Styles.uniqueStylesheets (Styles.objects w) stylesheets).
  split; [reflexivity|]. split; [apply uniqueStylesheets_NoDup|].
  split; [apply uniqueStylesheets_complete|]. apply uniqueStylesheets_In.
Qed.

(** ** The gatherer: what holds along every run *)

Section GathererRuns.

Import Styles JS.

Lemma extends_refl (o : gmap loc StyleHeader) : extends o o.
Proof. intros s sheet H. exists sheet. tauto. Qed.

Lemma extends_insert_new (o : gmap loc StyleHeader) (l : loc) (sheet : StyleHeader) :
  o !! l = None -> extends o (<[ l := sheet ]> o).
Proof.
  intros Hl s sheet0 Hs. exists sheet0.
  rewrite lookup_insert_ne by congruence. tauto.
Qed.

Lemma extends_alter (o : gmap loc StyleHeader) (l : loc) (f : StyleHeader -> StyleHeader) :
  (forall sheet, header (f sheet) = header sheet /\
                 (is_Some (content sheet) -> is_Some (content (f sheet))) /\
                 (is_Some (parsedContent sheet) -> is_Some (parsedContent (f sheet)))) ->
  extends o (alter f l o).
Proof.
  intros Hf s sheet Hs. destruct (decide (l = s)) as [->|Hne].
  - exists (f sheet). rewrite lookup_alter_eq, Hs. split; [reflexivity|]. apply Hf.
  - exists sheet. rewrite lookup_alter_ne by assumption. tauto.
Qed.

Lemma extends_setContent (o : gmap loc StyleHeader) (l : loc) (text : string) :
  extends o (alter (setContent text) l o).
Proof. apply extends_alter. intros sheet. simpl. eauto. Qed.

Lemma extends_setParsedContent (o : gmap loc StyleHeader) (l : loc)
    (items : list Declaration) :
  extends o (alter (setParsedContent items) l o).
Proof. apply extends_alter. intros sheet. simpl. eauto. Qed.

Lemma extends_resolved (o o' : gmap loc StyleHeader) (s : loc) :
  extends o o' -> refersTo resolved o s -> refersTo resolved o' s.
Proof.
  intros Hext (sheet & Hs & Ho & Hc & Hp).
  destruct (Hext s sheet Hs) as (sheet' & Hs' & Hh & Hc' & Hp').
  exists sheet'. split; [assumption|]. repeat split; [congruence | auto | auto].
Qed.

Lemma extends_regular (o o' : gmap loc StyleHeader) (s : loc) :
  extends o o' ->
  refersTo (fun sheet => origin (header sheet) = "regular") o s ->
  refersTo (fun sheet => origin (header sheet) = "regular") o' s.
Proof.
  intros Hext (sheet & Hs & Ho).
  destruct (Hext s sheet Hs) as (sheet' & Hs' & Hh & _).
  exists sheet'. split; [assumption | congruence].
Qed.

(** An assignment to a field of an object that keeps what is set keeps the
    invariant. *)
Lemma alter_invariant (f : StyleHeader -> StyleHeader) (l : loc) (w : World) :
  extends (objects w) (alter f l (objects w)) ->
  Invariant w -> Invariant (setObjects (alter f l (objects w)) w).
Proof.
  intros Hext [(a & Ha & Hres) Hr Hl Hn]. split; simpl; [| |assumption|].
  - exists a. split; [assumption|].
    eapply List.Forall_impl; [|exact Hres]. intros s. apply extends_resolved. assumption.
  - eapply List.Forall_impl; [|exact Hr]. intros s. apply extends_regular. assumption.
  - intros l' Hl'. destruct (decide (l = l')) as [->|Hne].
    + rewrite lookup_alter_eq, (Hn l' Hl'). reflexivity.
    + rewrite lookup_alter_ne by assumption. apply Hn. assumption.
Qed.

Lemma emit_preserves (P : World -> Prop) (handler : World -> World * Completion unit) :
  (forall w, P w -> P (fst (handler w))) ->
  forall n w, P w -> P (fst (emit n handler w)).
Proof.
  intros Hstep n. induction n as [|n IH]; intros w Hw; simpl; [assumption|].
  specialize (Hstep w Hw). destruct (handler w) as [w' [[]|e]]; simpl in *.
  - apply IH. assumption.
  - assumption.
Qed.

Lemma spliceFirst_Forall (P : loc -> Prop) (o : gmap loc StyleHeader) (id : string)
    (a : list loc) :
  Forall P a -> Forall P (spliceFirst o id a).
Proof.
  induction 1 as [|s a Hs Ha IH]; simpl; [constructor|].
  destruct (hasId o id s); [assumption | constructor; assumption].
Qed.

Lemma removeNth_Forall {A} (P : A -> Prop) (k : nat) (l : list A) :
  Forall P l -> Forall P (removeNth k l).
Proof.
  intros H. unfold removeNth. apply Forall_app. split.
  - apply Forall_take. assumption.
  - apply Forall_drop. assumption.
Qed.

Lemma newStyleHeader_invariant (h : Header) (w : World) :
  Invariant w -> Invariant (snd (newStyleHeader h w)).
Proof.
  intros [(a & Ha & Hres) Hr Hl Hn].
  assert (extends (objects w)
            (<[ nextObject w := {| header := h; content := None; parsedContent := None |} ]>
               (objects w))) as Hext.
  { apply extends_insert_new, Hn. lia. }
  split; simpl; [| |assumption|].
  - exists a. split; [assumption|].
    eapply List.Forall_impl; [|exact Hres]. intros s. apply extends_resolved. assumption.
  - eapply List.Forall_impl; [|exact Hr]. intros s. apply extends_regular. assumption.
  - intros l Hl'. rewrite lookup_insert_ne by lia. apply Hn. lia.
Qed.

Lemma onStyleSheetAdded_invariant (styleHeader : loc) (w : World) :
  Invariant w -> Invariant (fst (onStyleSheetAdded styleHeader w)).
Proof.
  intros Hw. unfold onStyleSheetAdded, notRegular.
  destruct (objects w !! styleHeader) as [sheet|] eqn:Hs; [|assumption].
  destruct (String.eqb (origin (header sheet)) "regular") eqn:E; simpl; [|assumption].
  destruct (driver (this w)) eqn:D; simpl; [|assumption].
  apply String.eqb_eq in E. destruct Hw as [Ha Hr Hl Hn].
  split; simpl; [assumption | | tauto | assumption].
  apply Forall_app. split; [assumption|]. constructor; [|constructor].
  exists sheet. split; assumption.
Qed.

Lemma onStyleSheetRemoved_invariant (id : string) (w : World) :
  Invariant w -> Invariant (fst (onStyleSheetRemoved id w)).
Proof.
  intros [(a & Ha & Hres) Hr Hl Hn]. split; simpl; [|assumption|assumption|assumption].
  exists (spliceFirst (objects w) id a). split.
  - rewrite lookup_alter_eq, Ha. reflexivity.
  - apply spliceFirst_Forall. assumption.
Qed.

Lemma onStyleSheetText_invariant (styleHeader : loc) (text : string)
    (tree : option (list DeclarationNode)) (w : World) :
  refersTo (fun sheet => origin (header sheet) = "regular") (objects w) styleHeader ->
  Invariant w -> Invariant (onStyleSheetText styleHeader text tree w).
Proof.
  intros (sheet & Hs & Hreg) Hw. unfold onStyleSheetText.
  pose proof (alter_invariant _ _ w (extends_setContent (objects w) styleHeader text) Hw)
    as Hw1.
  destruct tree as [parseTree|]; [|assumption].
  set (w1 := setObjects (alter (setContent text) styleHeader (objects w)) w) in *.
  pose proof (alter_invariant _ _ w1
    (extends_setParsedContent (objects w1) styleHeader (getCSSPropsInStyleSheet parseTree))
    Hw1) as Hw2.
  set (w2 := setObjects _ w1) in *.
  destruct Hw2 as [(a & Ha & Hres) Hr Hl Hn].
  split; simpl; [|assumption|assumption|assumption].
  exists (a ++ [styleHeader]). split.
  - rewrite lookup_alter_eq. simpl in Ha. rewrite Ha. reflexivity.
  - apply Forall_app. split; [assumption|]. constructor; [|constructor].
    eexists. split.
    + simpl. rewrite !lookup_alter_eq, Hs. reflexivity.
    + repeat split; simpl; eauto.
Qed.

Lemma endStylesCollect_invariant (w : World) :
  Invariant w -> Invariant (fst (endStylesCollect w)).
Proof.
  intros Hw. unfold endStylesCollect.
  destruct (negb (driver (this w)) || _); simpl; [assumption|].
  destruct Hw as [Ha Hr Hl Hn]. split; simpl; try assumption.
  intros H. apply Hl. lia.
Qed.

Lemma step_invariant (e : Event) (w : World) :
  Invariant w -> Invariant (fst (step e w)).
Proof.
  intros Hw. destruct e as [|h|id|k outcome| | |]; simpl.
  - destruct Hw as [Ha Hr Hl Hn]. split; simpl; auto.
  - pose proof (emit_preserves Invariant _
      (onStyleSheetAdded_invariant (fst (newStyleHeader h w)))
      (addedListeners w) _ (newStyleHeader_invariant h w Hw)) as H.
    simpl in H. destruct (emit _ _ _); assumption.
  - pose proof (emit_preserves Invariant _ (onStyleSheetRemoved_invariant id)
      (removedListeners w) w Hw) as H.
    destruct (emit _ _ w); assumption.
  - destruct (nth_error (requests w) k) as [styleHeader|] eqn:Hk; simpl; [|assumption].
    assert (refersTo (fun sheet => origin (header sheet) = "regular") (objects w) styleHeader)
      as Hreg.
    { destruct Hw as [_ Hr _ _]. rewrite List.Forall_forall in Hr.
      apply Hr. eapply nth_error_In. eassumption. }
    assert (Invariant (setRequests (removeNth k (requests w)) w)) as Hw'.
    { destruct Hw as [Ha Hr Hl Hn]. split; simpl; try assumption.
      apply removeNth_Forall. assumption. }
    destruct outcome as [[text tree]|]; simpl; [|assumption].
    apply onStyleSheetText_invariant; assumption.
  - pose proof (endStylesCollect_invariant w Hw) as H.
    destruct (endStylesCollect w); assumption.
  - unfold afterPass. pose proof (endStylesCollect_invariant w Hw) as H.
    destruct (endStylesCollect w) as [w1 p]. destruct H as [Ha Hr Hl Hn].
    split; simpl; assumption.
  - destruct (reactions w) as [|p rest]; simpl; [assumption|].
    destruct Hw as [Ha Hr Hl Hn]. split; simpl; assumption.
Qed.

Lemma constructor_invariant : Invariant constructor.
Proof.
  split; simpl.
  - exists []. split; [reflexivity | constructor].
  - constructor.
  - lia.
  - intros l _. apply lookup_empty.
Qed.

Lemma run_snoc (events : list Event) (e : Event) (w : World) :
  run (events ++ [e]) w = fst (step e (run events w)).
Proof. unfold run. rewrite fold_left_app. reflexivity. Qed.

Lemma run_invariant (events : list Event) (w : World) :
  Invariant w -> Invariant (run events w).
Proof.
  revert w. induction events as [|e events IH]; intros w Hw; [assumption|].
  apply IH, step_invariant, Hw.
Qed.

Lemma invariant_active (w : World) :
  Invariant w -> arrays w !! _activeStyles (this w) = Some (activeStyles w).
Proof.
  intros [(a & Ha & _) _ _ _]. unfold activeStyles, deref. rewrite Ha. reflexivity.
Qed.

(** What a handler does not touch, [emit] does not touch. *)
Lemma emit_keeps {A} (f : World -> A) (handler : World -> World * Completion unit) :
  (forall w, f (fst (handler w)) = f w) ->
  forall n w, f (fst (emit n handler w)) = f w.
Proof.
  intros Hstep n w.
  apply (emit_preserves (fun w' => f w' = f w) handler); [|reflexivity].
  intros w' Hw'. rewrite Hstep. assumption.
Qed.

Lemma onStyleSheetAdded_this (styleHeader : loc) (w : World) :
  this (fst (onStyleSheetAdded styleHeader w)) = this w.
Proof.
  unfold onStyleSheetAdded. destruct (notRegular _ _); [reflexivity|].
  destruct (negb _); reflexivity.
Qed.

Lemma onStyleSheetAdded_arrays (styleHeader : loc) (w : World) :
  arrays (fst (onStyleSheetAdded styleHeader w)) = arrays w.
Proof.
  unfold onStyleSheetAdded. destruct (notRegular _ _); [reflexivity|].
  destruct (negb _); reflexivity.
Qed.

(** No event assigns [this.driver] except [beforePass], and none assigns
    [this._activeStyles]. *)
Lemma step_this (e : Event) (w : World) :
  _activeStyles (this (fst (step e w))) = _activeStyles (this w) /\
  driver (this (fst (step e w))) =
    match e with BeforePass => true | _ => driver (this w) end.
Proof.
  destruct e as [|h|id|k outcome| | |]; simpl.
  - split; reflexivity.
  - pose proof (emit_keeps this _ (onStyleSheetAdded_this (fst (newStyleHeader h w)))
      (addedListeners w) (snd (newStyleHeader h w))) as H.
    simpl in H. destruct (emit _ _ _). simpl in *. rewrite H. split; reflexivity.
  - pose proof (emit_keeps this (onStyleSheetRemoved id) (fun _ => eq_refl)
      (removedListeners w) w) as H.
    destruct (emit _ _ w). simpl in *. rewrite H. split; reflexivity.
  - destruct (nth_error (requests w) k); [|split; reflexivity].
    destruct outcome as [[text [tree|]]|]; split; reflexivity.
  - unfold endStylesCollect. destruct (negb _ || _); split; reflexivity.
  - unfold afterPass, endStylesCollect. destruct (negb _ || _); split; reflexivity.
  - destruct (reactions w); split; reflexivity.
Qed.

Lemma run_activeStyles_ref (events : list Event) (w : World) :
  _activeStyles (this (run events w)) = _activeStyles (this w).
Proof.
  revert w. induction events as [|e events IH]; intros w; [reflexivity|].
  simpl. rewrite IH. apply step_this.
Qed.

Lemma run_driver (events : list Event) :
  driver (this (run events constructor)) = true <-> In BeforePass events.
Proof.
  induction events as [|e events IH] using rev_ind.
  - simpl. split; [discriminate | tauto].
  - rewrite run_snoc, (proj2 (step_this e _)), in_app_iff. simpl.
    destruct e; rewrite ?IH; split; intros H; try tauto;
      try (left; assumption); destruct H as [H|[H|[]]]; try assumption; try discriminate.
Qed.

(** A notification of an added sheet does not change any array. *)
Lemma step_added_arrays (h : Header) (w : World) :
  arrays (fst (step (StyleSheetAdded h) w)) = arrays w.
Proof.
  simpl.
  pose proof (emit_keeps arrays _ (onStyleSheetAdded_arrays (fst (newStyleHeader h w)))
    (addedListeners w) (snd (newStyleHeader h w))) as H.
  simpl in H. destruct (emit _ _ _). simpl in *. exact H.
Qed.

Lemma step_added_activeStyles (h : Header) (w : World) :
  activeStyles (fst (step (StyleSheetAdded h) w)) = activeStyles w.
Proof.
  unfold activeStyles, deref.
  rewrite (proj1 (step_this _ _)), step_added_arrays. reflexivity.
Qed.

Lemma emit_skip (handler : World -> World * Completion unit) (w : World) (n : nat) :
  handler w = (w, Return tt) -> emit n handler w = (w, Return tt).
Proof.
  intros H. induction n as [|n IH]; simpl; [reflexivity|]. rewrite H. assumption.
Qed.




(** C8.  In every state that a run reaches, each record of the active
    collection has the origin [regular], and its content and its declarations
    are set; a notification of an added sheet leaves the active collection as
    it is (a record enters only when its request has settled and the text is
    parsed), and one for a sheet of another origin changes nothing but the
    store of objects, which has the payload of the notification. *)
Theorem C8_active_records_are_regular_and_resolved (events : list Event) :
  let w := run events constructor in
  (forall s, In s (activeStyles w) ->
     exists sheet,
       objects w !! s = Some sheet /\
       origin (header sheet) = "regular" /\
       is_Some (content sheet) /\ is_Some (parsedContent sheet)) /\
  (forall h, activeStyles (fst (step (StyleSheetAdded h) w)) = activeStyles w) /\
  (forall h, origin h <> "regular" ->
     step (StyleSheetAdded h) w = (snd (newStyleHeader h w), Done)).
Proof.
  intros w. pose proof (run_invariant events constructor constructor_invariant) as Hw.
  fold w in Hw. split; [|split].
  - intros s Hs. pose proof (invariant_active w Hw) as Ha.
    destruct Hw as [(a & Ha' & Hres) _ _ _]. rewrite Ha in Ha'. injection Ha' as <-.
    rewrite List.Forall_forall in Hres. apply Hres. assumption.
  - intros h. apply step_added_activeStyles.
  - intros h Hh. simpl. rewrite emit_skip; [reflexivity|].
    unfold onStyleSheetAdded, notRegular. simpl. rewrite lookup_insert_eq. simpl.
    destruct (String.eqb (origin h) "regular") eqn:E; [|reflexivity].
    apply String.eqb_eq in E. contradiction.
Qed.


(** The continuation of a request that settles with a text that parses
    sets the content and the declarations of its record and appends it at
    the end of the active collection: the collection is in the order in
    which the requests resolve. *)
Theorem settled_record_is_appended (events : list Event) (k : nat)
    (styleHeader : loc) (text : string) (parseTree : list DeclarationNode) :
  let w := run events constructor in
  let w' := fst (step (TextSettled k (Some (text, Some parseTree))) w) in
  nth_error (requests w) k = Some styleHeader ->
  activeStyles w' = activeStyles w ++ [styleHeader] /\
  exists sheet,
    objects w !! styleHeader = Some sheet /\
    objects w' !! styleHeader =
      Some {| header := header sheet;
              content := Some text;
              parsedContent := Some (getCSSPropsInStyleSheet parseTree) |}.
Proof.
  intros w w' Hk. pose proof (run_invariant events constructor constructor_invariant) as Hw.
  fold w in Hw. unfold w'. simpl. rewrite Hk. split.
  - unfold activeStyles, deref. simpl.
    rewrite lookup_alter_eq, (invariant_active w Hw). reflexivity.
  - destruct Hw as [_ Hr _ _]. rewrite List.Forall_forall in Hr.
    destruct (Hr styleHeader (nth_error_In _ _ Hk)) as (sheet & Hs & _).
    exists sheet. split; [assumption|]. simpl.
    rewrite !lookup_alter_eq, Hs. reflexivity.
Qed.

Lemma spliceFirst_no_match (o : gmap loc StyleHeader) (id : string) (a : list loc) :
  Forall (fun s => hasId o id s = false) a -> spliceFirst o id a = a.
Proof.
  induction 1 as [|s a Hs Ha IH]; simpl; [reflexivity|].
  rewrite Hs, IH. reflexivity.
Qed.

Lemma spliceFirst_first_match (o : gmap loc StyleHeader) (id : string)
    (before after : list loc) (s : loc) :
  Forall (fun s' => hasId o id s' = false) before ->
  hasId o id s = true ->
  spliceFirst o id (before ++ s :: after) = before ++ after.
Proof.
  intros Hb Hs. induction Hb as [|x before Hx Hb IH]; simpl.
  - rewrite Hs. reflexivity.
  - rewrite Hx, IH. reflexivity.
Qed.

(** The handler of a removed sheet takes the first record with that id
    out of the active collection, and only that one; without such a record
    it changes nothing. *)
Theorem removed_takes_out_the_first_match (events : list Event) (id : string) :
  let w := run events constructor in
  let w' := fst (onStyleSheetRemoved id w) in
  activeStyles w' = spliceFirst (objects w) id (activeStyles w) /\
  (Forall (fun s => hasId (objects w) id s = false) (activeStyles w) ->
     activeStyles w' = activeStyles w) /\
  (forall before s after,
     activeStyles w = before ++ s :: after ->
     Forall (fun s' => hasId (objects w) id s' = false) before ->
     hasId (objects w) id s = true ->
     activeStyles w' = before ++ after).
Proof.
  intros w w'. pose proof (run_invariant events constructor constructor_invariant) as Hw.
  fold w in Hw.
  assert (activeStyles w' = spliceFirst (objects w) id (activeStyles w)) as Heq.
  { unfold w', activeStyles, deref. simpl.
    rewrite lookup_alter_eq, (invariant_active w Hw). reflexivity. }
  split; [exact Heq|]. split.
  - intros H. rewrite Heq. apply spliceFirst_no_match. assumption.
  - intros before s after Ha Hb Hs. rewrite Heq, Ha.
    apply spliceFirst_first_match; assumption.
Qed.

(** C6 (as amended).  The active collection is empty when the gatherer is
    constructed, and [beginStylesCollect] leaves it, and every array and
    object, as it is: it is empty after the first start of a new gatherer
    when no record has entered yet, and whatever an earlier session left is
    still there. *)
Theorem C6_begin_keeps_the_active_collection (w : World) :
  activeStyles constructor = [] /\
  arrays (beginStylesCollect w) = arrays w /\
  objects (beginStylesCollect w) = objects w /\
  _activeStyles (this (beginStylesCollect w)) = _activeStyles (this w) /\
  activeStyles (beginStylesCollect w) = activeStyles w.
Proof. repeat split. Qed.

(** C4 (as amended).  When [endStylesCollect] resolves, the value is the
    reference [this._activeStyles] itself: read at that moment it gives the
    active collection, and read after any later events it gives the active
    collection as it is then. *)
Theorem C4_end_resolves_with_the_active_array
    (events later : list Event) (w' : World) (r : loc) :
  endStylesCollect (run events constructor) = (w', Resolved r) ->
  r = _activeStyles (this w') /\
  arrays w' !! r = Some (activeStyles (run events constructor)) /\
  arrays (run later w') !! r = Some (activeStyles (run later w')).
Proof.
  intros Hend.
  pose proof (run_invariant events constructor constructor_invariant) as Hw.
  pose proof (endStylesCollect_invariant _ Hw) as Hw'.
  pose proof (invariant_active _ Hw) as Ha.
  rewrite Hend in Hw'. simpl in Hw'.
  unfold endStylesCollect in Hend.
  destruct (negb _ || _); [discriminate|]. injection Hend as <- <-.
  split; [reflexivity|]. split; [exact Ha|].
  pose proof (invariant_active _ (run_invariant later _ Hw')) as Hl.
  rewrite run_activeStyles_ref in Hl. exact Hl.
Qed.

End GathererRuns.

Section GathererExamples.

Import Styles JS Fixture.

Lemma C4_end_resolves_with_the_active_array_witness :
  let events := [BeforePass; StyleSheetAdded (sheetHeader "1");
                 StyleSheetAdded (sheetHeader "2"); TextSettled 0 (Some emptyRule)] in
  let later := [TextSettled 0 (Some otherRule)] in
  let w' := fst (endStylesCollect (run events constructor)) in
  endStylesCollect (run events constructor) = (w', Resolved 0%nat) /\
  0%nat = _activeStyles (this w') /\
  arrays w' !! 0%nat = Some (activeStyles (run events constructor)) /\
  arrays (run later w') !! 0%nat = Some (activeStyles (run later w')).
Proof.
  intros events later w'.
  assert (endStylesCollect (run events constructor) = (w', Resolved 0%nat)) as H
    by (vm_compute; reflexivity).
  split; [exact H|].
  exact (C4_end_resolves_with_the_active_array events later w' 0%nat H).
Defined.

Lemma settled_record_is_appended_witness :
  let events := [BeforePass; StyleSheetAdded (sheetHeader "1")] in
  let w := run events constructor in
  let w' := fst (step (TextSettled 0 (Some ("a{}"%string, Some []))) w) in
  nth_error (requests w) 0 = Some 0%nat /\
  activeStyles w' = activeStyles w ++ [0%nat] /\
  exists sheet,
    objects w !! 0%nat = Some sheet /\
    objects w' !! 0%nat =
      Some {| header := header sheet;
              content := Some "a{}"%string;
              parsedContent := Some (getCSSPropsInStyleSheet []) |}.
Proof.
  intros events w w'.
  assert (nth_error (requests w) 0 = Some 0%nat) as H by (vm_compute; reflexivity).
  split; [exact H|].
  exact (settled_record_is_appended events 0 0%nat "a{}" [] H).
Defined.

(** C4 as stated fails: a request that was in flight when
    [endStylesCollect] resolved settles afterwards, and the collection that
    was returned has one record more. *)
Lemma C4_returned_collection_changes_later :
  let events := [BeforePass; StyleSheetAdded (sheetHeader "1");
                 StyleSheetAdded (sheetHeader "2"); TextSettled 0 (Some emptyRule)] in
  let w' := fst (endStylesCollect (run events constructor)) in
  let w'' := run [TextSettled 0 (Some otherRule)] w' in
  exists r,
    endStylesCollect (run events constructor) = (w', Resolved r) /\
    deref w' r = [0%nat] /\
    objects w' !! 0%nat = Some (added "1" "a{}") /\
    deref w'' r = [0%nat; 1%nat] /\
    objects w'' !! 1%nat = Some (added "2" "b{}") /\
    deref w'' r <> deref w' r.
Proof.
  exists 0%nat. vm_compute. repeat split. discriminate.
Qed.

(** C6 as stated fails: after a whole pass with one sheet, a second start
    on the same gatherer leaves that sheet in the active collection. *)
Lemma C6_second_start_keeps_old_records :
  let w := beginStylesCollect
             (run [BeforePass; StyleSheetAdded (sheetHeader "1");
                   TextSettled 0 (Some emptyRule); AfterPass; RunReaction] constructor) in
  activeStyles w = [0%nat] /\
  objects w !! 0%nat = Some (added "1" "a{}") /\
  activeStyles w <> [].
Proof. vm_compute. repeat split. discriminate. Qed.

End GathererExamples.

(** ** The audits: matching of declarations *)

Section QueryFacts.

Import JS UsesNewFlexBox.

Lemma prefix_starts_with (needle s : string) :
  String.prefix needle s = true <-> exists rest, s = (needle ++ rest)%string.
Proof.
  revert s. induction needle as [|c needle IH]; intros s; simpl.
  - split; [intros _; exists s; reflexivity | intros _; destruct s; reflexivity].
  - destruct s as [|c' s]; simpl; [split; [discriminate | intros [rest [=]]]|].
    destruct (ascii_dec c c') as [<-|Hne].
    + rewrite IH. split; intros [rest H]; exists rest.
      * rewrite H. reflexivity.
      * change (String c s = String c (needle ++ rest)) in H.
        injection H as ->. reflexivity.
    + split; [discriminate|]. intros [rest H].
      change (String c' s = String c (needle ++ rest)) in H. congruence.
Qed.

Lemma indexOfFrom_eq (needle s : string) (i : Z) :
  indexOfFrom needle s i =
  if String.prefix needle s then i
  else match s with
       | EmptyString => -1
       | String _ s' => indexOfFrom needle s' (i + 1)
       end.
Proof. destruct s; reflexivity. Qed.

Lemma indexOfFrom_range (needle s : string) (i : Z) :
  indexOfFrom needle s i = -1 \/ i <= indexOfFrom needle s i.
Proof.
  revert i. induction s as [|c s IH]; intros i; rewrite indexOfFrom_eq;
    destruct (String.prefix needle _).
  - right. lia.
  - left. reflexivity.
  - right. lia.
  - destruct (IH (i + 1)) as [H|H]; [left; assumption | right; lia].
Qed.

(** [val.indexOf(needle) === 0] says that [val] starts with [needle]. *)
Lemma indexOf_zero (s needle : string) :
  indexOf s (Some needle) = 0 <-> String.prefix needle s = true.
Proof.
  unfold indexOf, ToString. rewrite indexOfFrom_eq.
  destruct (String.prefix needle s); [split; reflexivity|].
  split; [|discriminate]. intros H. destruct s as [|c s]; [discriminate|].
  destruct (indexOfFrom_range needle s (0 + 1)) as [H'|H']; lia.
Qed.

Lemma truthy_Some (s : string) : s <> EmptyString -> truthy (Some s) = true.
Proof. destruct s; [contradiction | reflexivity]. Qed.

(** The two copies of the callback agree. *)
Lemma usesProperty_copies (name value : option string) (item : Declaration) :
  WillChange.usesProperty name value item = usesProperty name value item.
Proof. reflexivity. Qed.

Lemma getPropertyUse_copies (stylesheets : list loc) (name value : option string)
    (st : gmap loc StyleHeader) :
  WillChange.getPropertyUse stylesheets name value st =
  stylesheetsThatUsedProperty stylesheets name value st.
Proof. reflexivity. Qed.

(** The callback of a query with a value and no name: a declaration that
    has a value is kept by the callback of [stylesheetsThatUsedProperty] (and
    of its copy [getPropertyUse]) exactly when its value starts with the
    queried value. *)
Lemma callback_of_value_only_query
    (item : Declaration) (propName : option string) (propVal v : string) :
  truthy propName = false ->
  propVal <> EmptyString ->
  val (property item) = Some v ->
  exists matches,
    usesProperty propName (Some propVal) item = Return matches /\
    WillChange.usesProperty propName (Some propVal) item = Return matches /\
    (matches = true <-> exists rest, v = (propVal ++ rest)%string).
Proof.
  intros Hname Hval Hv. exists (String.prefix propVal v).
  assert (usesProperty propName (Some propVal) item = Return (String.prefix propVal v)) as H.
  { unfold usesProperty. rewrite Hv, Hname, (truthy_Some _ Hval). simpl.
    f_equal. destruct (String.prefix propVal v) eqn:E.
    - apply Z.eqb_eq, indexOf_zero. assumption.
    - apply Z.eqb_neq. intros H0. apply indexOf_zero in H0. congruence. }
  split; [assumption|]. split; [rewrite usesProperty_copies; assumption|].
  apply prefix_starts_with.
Qed.

(** The example of the specification: [fle] matches [flex] and does not
    match [inline-flex]. *)
Example prefix_semantics_example :
  usesProperty None (Some "fle"%string)
    (Fixture.decl "display" "flex" (Fixture.range 0 0 0 13)) = Return true /\
  usesProperty None (Some "fle"%string)
    (Fixture.decl "display" "inline-flex" (Fixture.range 0 0 0 20)) = Return false.
Proof. split; reflexivity. Qed.

(** The inner [filter] returns only when every item has a value. *)
Lemma filter_returns_all_values (propName propVal : option string)
    (items kept : list Declaration) :
  filter (usesProperty propName propVal) items = Return kept ->
  forall item, In item items -> val (property item) <> None.
Proof.
  revert kept. induction items as [|x items IH]; intros kept H item Hin; [destruct Hin|].
  simpl in H. destruct (usesProperty propName propVal x) as [keep|e] eqn:Hx; [|discriminate].
  simpl in H. destruct (filter _ items) as [rest|e] eqn:Hrest; [|discriminate].
  destruct Hin as [<-|Hin].
  - unfold usesProperty in Hx. destruct (val (property x)); [discriminate | discriminate].
  - eapply IH; [reflexivity | assumption].
Qed.

Lemma filterSheets_throws (propName propVal : option string) (stylesheets : list loc) :
  forall (st : gmap loc StyleHeader) (s : loc) (sheet : StyleHeader)
         (items : list Declaration) (item : Declaration),
  In s stylesheets ->
  st !! s = Some sheet ->
  parsedContent sheet = Some items ->
  In item items ->
  val (property item) = None ->
  exists st' e, filterSheets (usesProperty propName propVal) stylesheets st = (st', Throw e).
Proof.
  induction stylesheets as [|s0 l IH]; intros st s sheet items item Hs Hst Hitems Hitem Hval;
    [destruct Hs|].
  simpl. destruct (filterSheet _ s0 st) as [st1 [keep|e]] eqn:H0; [|eauto].
  assert (s <> s0 /\ st1 !! s = Some sheet) as [Hne Hst1].
  { unfold filterSheet in H0.
    destruct (st !! s0) as [sheet0|] eqn:Hs0; [|discriminate].
    destruct (parsedContent sheet0) as [items0|] eqn:Hp0; [|discriminate].
    destruct (filter _ items0) as [kept|e] eqn:Hf; [|discriminate].
    injection H0 as <- _.
    assert (s <> s0) as Hne.
    { intros ->. rewrite Hst in Hs0. injection Hs0 as <-.
      rewrite Hitems in Hp0. injection Hp0 as <-.
      exact (filter_returns_all_values _ _ _ _ Hf item Hitem Hval). }
    split; [assumption|]. rewrite lookup_insert_ne by congruence. assumption. }
  destruct Hs as [->|Hs]; [contradiction Hne; reflexivity|].
  destruct (IH st1 s sheet items item Hs Hst1 Hitems Hitem Hval) as (st' & e & ->).
  eauto.
Qed.

(** C10.  When at least one of the name and the value of the query is
    given, the test on the value is evaluated for every declaration of every
    sheet, also when only a name is given: if some declaration of some sheet
    of the input has no value, the call throws (a [TypeError]) and returns no
    result. *)
Theorem C10_absent_value_throws
    (stylesheets : list loc) (propName propVal : option string)
    (st : gmap loc StyleHeader) (s : loc) (sheet : StyleHeader)
    (items : list Declaration) (item : Declaration) :
  truthy propName || truthy propVal = true ->
  In s stylesheets ->
  st !! s = Some sheet ->
  parsedContent sheet = Some items ->
  In item items ->
  val (property item) = None ->
  exists st',
    stylesheetsThatUsedProperty stylesheets propName propVal st = (st', Throw TypeError) /\
    WillChange.getPropertyUse stylesheets propName propVal st = (st', Throw TypeError).
Proof.
  intros Hq Hs Hst Hitems Hitem Hval.
  assert (exists st',
            stylesheetsThatUsedProperty stylesheets propName propVal st
            = (st', Throw TypeError)) as [st' H].
  { unfold stylesheetsThatUsedProperty.
    destruct (filterSheets_throws propName propVal stylesheets st s sheet items item
                Hs Hst Hitems Hitem Hval) as (st' & [] & ->).
    destruct (truthy propName), (truthy propVal); try discriminate; simpl; eauto. }
  exists st'. split; [exact H|]. rewrite <- H. apply getPropertyUse_copies.
Qed.

(** On a declaration that has a value the callback returns, and what it
    returns is the predicate of the query. *)
Lemma usesProperty_matchesQuery (propName propVal : option string) (item : Declaration) :
  val (property item) <> None ->
  usesProperty propName propVal item = Return (matchesQuery propName propVal item).
Proof.
  intros Hv. unfold usesProperty, matchesQuery.
  destruct (val (property item)) as [v|]; [clear Hv | contradiction].
  assert (forall needle, (indexOf v (Some needle) =? 0) = String.prefix needle v) as Hidx.
  { intros needle. destruct (String.prefix needle v) eqn:E.
    - apply Z.eqb_eq, indexOf_zero. assumption.
    - apply Z.eqb_neq. intros H0. apply indexOf_zero in H0. congruence. }
  destruct propName as [[|c n]|], propVal as [[|c' p]|]; simpl; try reflexivity;
    rewrite ?Hidx; reflexivity.
Qed.

Lemma filter_of_total_callback {A} (callback : A -> Completion bool) (f : A -> bool)
    (l : list A) :
  (forall x, In x l -> callback x = Return (f x)) ->
  JS.filter callback l = Return (List.filter f l).
Proof.
  induction l as [|x l IH]; intros H; simpl; [reflexivity|].
  rewrite (H x) by (left; reflexivity). simpl.
  rewrite IH by (intros y Hy; apply H; right; assumption). simpl.
  destruct (f x); reflexivity.
Qed.

Lemma filterSheet_filtered (propName propVal : option string) (s : loc)
    (st : gmap loc StyleHeader) (sheet : StyleHeader) :
  st !! s = Some sheet ->
  allValues sheet ->
  filterSheet (usesProperty propName propVal) s st =
  (<[ s := filtered propName propVal sheet ]> st, Return (hasMatch propName propVal st s)).
Proof.
  intros Hs (items & Hitems & Hvals). unfold filterSheet, hasMatch, filtered.
  rewrite Hs, Hitems.
  rewrite (filter_of_total_callback _ (matchesQuery propName propVal)).
  - reflexivity.
  - intros item Hin. apply usesProperty_matchesQuery.
    rewrite List.Forall_forall in Hvals. apply Hvals. assumption.
Qed.

Lemma filterSheets_filtered (propName propVal : option string) (stylesheets : list loc) :
  forall st : gmap loc StyleHeader,
  List.NoDup stylesheets ->
  (forall s, In s stylesheets -> exists sheet, st !! s = Some sheet /\ allValues sheet) ->
  exists st',
    filterSheets (usesProperty propName propVal) stylesheets st
      = (st', Return (List.filter (hasMatch propName propVal st) stylesheets)) /\
    (forall s, In s stylesheets -> st' !! s = filtered propName propVal <$> st !! s) /\
    (forall s, ~ In s stylesheets -> st' !! s = st !! s).
Proof.
  induction stylesheets as [|s0 l IH]; intros st Hnd Hwf.
  - exists st. simpl. split; [reflexivity|]. split; [intros s []|reflexivity].
  - apply List.NoDup_cons_iff in Hnd as [Hs0 Hnd].
    destruct (Hwf s0 (or_introl eq_refl)) as (sheet0 & Hst0 & Hv0).
    set (st1 := <[ s0 := filtered propName propVal sheet0 ]> st).
    assert (forall s, s <> s0 -> st1 !! s = st !! s) as Hother.
    { intros s Hne. unfold st1. rewrite lookup_insert_ne by congruence. reflexivity. }
    destruct (IH st1 Hnd) as (st' & Hrun & Hin & Hout).
    { intros s Hs. rewrite Hother by (intros ->; contradiction).
      apply Hwf. right. assumption. }
    exists st'. simpl. rewrite (filterSheet_filtered _ _ _ _ _ Hst0 Hv0).
    fold st1. rewrite Hrun. split; [|split].
    + f_equal. f_equal.
      assert (List.filter (hasMatch propName propVal st1) l
              = List.filter (hasMatch propName propVal st) l) as ->; [|reflexivity].
      apply List.filter_ext_in. intros s Hs. unfold hasMatch.
      rewrite Hother by (intros ->; contradiction). reflexivity.
    + intros s [<-|Hs].
      * rewrite Hout by assumption. unfold st1. rewrite lookup_insert_eq, Hst0. reflexivity.
      * rewrite (Hin s Hs), Hother by (intros ->; contradiction). reflexivity.
    + intros s Hs. rewrite Hout by (intros H; apply Hs; right; assumption).
      apply Hother. intros ->. apply Hs. left. reflexivity.
Qed.

(** The query on records that all have values, each given once: the result
    lists, in the order of the input, the sheets that have a matching
    declaration; each sheet of the input is left with its matching
    declarations, in their order; no other object changes. *)
Theorem query_keeps_matching_declarations
    (stylesheets : list loc) (propName propVal : option string) (st : gmap loc StyleHeader) :
  truthy propName || truthy propVal = true ->
  List.NoDup stylesheets ->
  (forall s, In s stylesheets -> exists sheet, st !! s = Some sheet /\ allValues sheet) ->
  exists st',
    stylesheetsThatUsedProperty stylesheets propName propVal st
      = (st', Return (List.filter (hasMatch propName propVal st) stylesheets)) /\
    (forall s, In s stylesheets -> st' !! s = filtered propName propVal <$> st !! s) /\
    (forall s, ~ In s stylesheets -> st' !! s = st !! s).
Proof.
  intros Hq Hnd Hwf. unfold stylesheetsThatUsedProperty.
  destruct (filterSheets_filtered propName propVal stylesheets st Hnd Hwf)
    as (st' & Hrun & Hin & Hout).
  exists st'. split; [|split; assumption].
  destruct (truthy propName), (truthy propVal); try discriminate; exact Hrun.
Qed.

Lemma query_keeps_matching_declarations_witness :
  let st : gmap loc StyleHeader := {[ 0%nat := Fixture.sheet ]} in
  exists st',
    stylesheetsThatUsedProperty [0%nat] (Some "display"%string) (Some "box"%string) st
      = (st', Return [0%nat]) /\
    (forall s, In s [0%nat] ->
       st' !! s = filtered (Some "display"%string) (Some "box"%string) <$> st !! s) /\
    (forall s, ~ In s [0%nat] -> st' !! s = st !! s).
Proof.
  intros st.
  assert (List.NoDup [0%nat]) as Hnd by (repeat constructor; simpl; tauto).
  assert (forall s, In s [0%nat] -> exists sheet, st !! s = Some sheet /\ allValues sheet)
    as Hwf.
  { intros s [<-|[]]. exists Fixture.sheet. split; [reflexivity|].
    exists [Fixture.displayBox; Fixture.colorRed]. split; [reflexivity|].
    repeat constructor; discriminate. }
  exact (query_keeps_matching_declarations [0%nat] (Some "display"%string)
           (Some "box"%string) st eq_refl Hnd Hwf).
Defined.

(** A query with neither a name nor a value returns the empty list and
    touches nothing. *)
Theorem query_without_name_and_value
    (stylesheets : list loc) (propName propVal : option string) (st : gmap loc StyleHeader) :
  truthy propName = false ->
  truthy propVal = false ->
  stylesheetsThatUsedProperty stylesheets propName propVal st = (st, Return []) /\
  WillChange.getPropertyUse stylesheets propName propVal st = (st, Return []).
Proof.
  intros Hn Hv. unfold stylesheetsThatUsedProperty, WillChange.getPropertyUse.
  rewrite Hn, Hv. split; reflexivity.
Qed.

Lemma query_without_name_and_value_witness :
  truthy None = false /\
  truthy (Some EmptyString) = false /\
  stylesheetsThatUsedProperty [0%nat] None (Some EmptyString) {[ 0%nat := Fixture.sheet ]}
    = ({[ 0%nat := Fixture.sheet ]}, Return []) /\
  WillChange.getPropertyUse [0%nat] None (Some EmptyString) {[ 0%nat := Fixture.sheet ]}
    = ({[ 0%nat := Fixture.sheet ]}, Return []).
Proof.
  split; [reflexivity|]. split; [reflexivity|].
  apply (query_without_name_and_value [0%nat] None (Some EmptyString)
           {[ 0%nat := Fixture.sheet ]}); reflexivity.
Defined.

Lemma C10_absent_value_throws_witness :
  let st : gmap loc StyleHeader := {[ 0%nat := Fixture.bareSheet ]} in
  truthy (Some "color"%string) || truthy None = true /\
  val (property (Styles.getCSSProp Fixture.bareNode)) = None /\
  exists st',
    stylesheetsThatUsedProperty [0%nat] (Some "color"%string) None st = (st', Throw TypeError) /\
    WillChange.getPropertyUse [0%nat] (Some "color"%string) None st = (st', Throw TypeError).
Proof.
  split; [reflexivity|]. split; [reflexivity|].
  apply (C10_absent_value_throws [0%nat] (Some "color"%string) None
           {[ 0%nat := Fixture.bareSheet ]} 0%nat Fixture.bareSheet
           [Fixture.colorRed; Styles.getCSSProp Fixture.bareNode]
           (Styles.getCSSProp Fixture.bareNode)).
  - reflexivity.
  - left. reflexivity.
  - reflexivity.
  - reflexivity.
  - right. left. reflexivity.
  - reflexivity.
Defined.

(** C2.  The query assigns the filtered declarations to the records of
    its input: after a query for [display: box] the record holds one
    declaration where it held two, and a later query for [color] on the same
    records finds nothing. *)
Theorem C2_query_overwrites_parsedContent :
  let st : gmap loc StyleHeader := {[ 0%nat := Fixture.sheet ]} in
  exists st',
    stylesheetsThatUsedProperty [0%nat] (Some "display"%string) (Some "box"%string) st
      = (st', Return [0%nat]) /\
    parsedContent <$> st !! 0%nat = Some (Some [Fixture.displayBox; Fixture.colorRed]) /\
    parsedContent <$> st' !! 0%nat = Some (Some [Fixture.displayBox]) /\
    snd (stylesheetsThatUsedProperty [0%nat] (Some "color"%string) None st) = Return [0%nat] /\
    snd (stylesheetsThatUsedProperty [0%nat] (Some "color"%string) None st') = Return [].
Proof.
  eexists. split; [reflexivity|]. repeat split.
Qed.

End QueryFacts.

(** ** The audits: the text of a rule *)

Section ExcerptFacts.

Import JS UsesNewFlexBox.

(** In the branch for several lines, two boundary lines that are no
    numbers (or are blank) give [slice(0, 0)]: the rule is empty whatever
    the range is. *)
Lemma rule_of_lines_that_are_no_numbers (content : string) (range : Range)
    (first last : string) :
  startLine range <> endLine range ->
  index (split LF content) (startLine range) = Some first ->
  index (split LF content) (endLine range) = Some last ->
  StringToIntegral first = Fin 0 ->
  StringToIntegral last = Fin 0 ->
  rule content range = Return EmptyString.
Proof.
  intros Hne Hfirst Hlast Hf Hl. unfold rule.
  apply Z.eqb_neq in Hne. rewrite Hne, Hfirst, Hlast.
  unfold slice. rewrite Hf, Hl. simpl.
  replace (Z.min 0 (Z.of_nat (List.length (split LF content)))) with 0 by lia.
  reflexivity.
Qed.

Lemma rule_of_lines_that_are_no_numbers_witness :
  startLine Fixture.multiLineRange <> endLine Fixture.multiLineRange /\
  StringToIntegral "  display:" = Fin 0 /\
  StringToIntegral "    box;" = Fin 0 /\
  rule Fixture.multiLineCss Fixture.multiLineRange = Return EmptyString.
Proof.
  assert (startLine Fixture.multiLineRange <> endLine Fixture.multiLineRange) as Hne
    by (vm_compute; discriminate).
  split; [exact Hne|]. split; [reflexivity|]. split; [reflexivity|].
  exact (rule_of_lines_that_are_no_numbers Fixture.multiLineCss Fixture.multiLineRange
           "  display:" "    box;" Hne eq_refl eq_refl eq_refl eq_refl).
Defined.

(** When the range is within one line, the rule is the substring of the
    line with that number between the two columns. *)
Theorem rule_within_one_line (content : string) (range : Range) (line : string) :
  startLine range = endLine range ->
  index (split LF content) (startLine range) = Some line ->
  rule content range = Return (substring line (startColumn range) (endColumn range)) /\
  (0 <= startColumn range <= endColumn range ->
   endColumn range <= Z.of_nat (String.length line) ->
   substring line (startColumn range) (endColumn range) =
   String.substring (Z.to_nat (startColumn range))
                    (Z.to_nat (endColumn range - startColumn range)) line).
Proof.
  intros Heq Hline. split.
  - unfold rule. apply Z.eqb_eq in Heq. rewrite Heq, Hline. reflexivity.
  - intros Hcols Hlen. unfold substring, clamp. f_equal; f_equal; lia.
Qed.

Lemma rule_within_one_line_witness :
  startLine (Fixture.range 0 4 0 14) = endLine (Fixture.range 0 4 0 14) /\
  rule ("a { color: red; }" ++ newline) (Fixture.range 0 4 0 14) = Return "color: red"%string.
Proof.
  split; [reflexivity|].
  apply (rule_within_one_line ("a { color: red; }" ++ newline) (Fixture.range 0 4 0 14)
           "a { color: red; }"); reflexivity.
Defined.

(** C1.  For the declaration that goes from line 1, column 2 to line 2,
    column 7 of a sheet of four lines, the rule that
    [getFormattedStyleContent] builds is empty, where the excerpt described
    is [display:], a line break, and [    box]. *)
Theorem C1_rule_over_several_lines_is_not_the_excerpt :
  rule Fixture.multiLineCss Fixture.multiLineRange = Return EmptyString /\
  Specification.extractMultiLine Fixture.multiLineCss Fixture.multiLineRange
    = Some ("display:" ++ newline ++ "    box")%string /\
  getFormattedStyleContent Fixture.multiLineCss
      (Fixture.decl "display" "box" Fixture.multiLineRange)
    = Return (newline ++ "a {" ++ newline ++ "  " ++ newline
              ++ "} (line: 1, row: 2, col: 7)")%string /\
  WillChange.getFormattedStyleContent Fixture.multiLineCss
      (Fixture.decl "display" "box" Fixture.multiLineRange)
    = getFormattedStyleContent Fixture.multiLineCss
      (Fixture.decl "display" "box" Fixture.multiLineRange).
Proof. repeat split. Qed.

End ExcerptFacts.

(** ** The gatherer: the properties of a declaration *)

Section DeclarationFacts.

Import JS Styles.

Lemma split_first_colon (text : string) :
  split ":" text =
  fst (Specification.splitOnFirstColon text) ::
  match snd (Specification.splitOnFirstColon text) with
  | None => []
  | Some after => split ":" after
  end.
Proof.
  induction text as [|c text IH]; simpl; [reflexivity|].
  destruct (Ascii.eqb c ":"); simpl; [reflexivity|].
  rewrite IH. destruct (Specification.splitOnFirstColon text) as [before after].
  reflexivity.
Qed.

(** What the code records: the name is the trimmed text before the first
    colon, the value the trimmed text between the first colon and the
    second one (or the end). *)
Lemma getCSSProp_property (node : DeclarationNode) :
  property (getCSSProp node) =
  {| name := trim (fst (Specification.splitOnFirstColon (nodeText node)));
     val := option_map (fun after => trim (fst (Specification.splitOnFirstColon after)))
                       (snd (Specification.splitOnFirstColon (nodeText node))) |}.
Proof.
  unfold getCSSProp. simpl. rewrite split_first_colon. simpl.
  destruct (snd (Specification.splitOnFirstColon (nodeText node))) as [after|];
    [|reflexivity].
  rewrite (split_first_colon after). reflexivity.
Qed.

(** C5.  For the declaration [background: url(http://a.b/c.png)] the code
    records the value [url(http], where splitting on the first colon gives
    [url(http://a.b/c.png)]. *)
Theorem C5_value_ends_at_the_second_colon :
  property (getCSSProp Fixture.urlNode)
    = {| name := "background"; val := Some "url(http"%string |} /\
  Specification.propertyOf (nodeText Fixture.urlNode)
    = {| name := "background"; val := Some "url(http://a.b/c.png)"%string |}.
Proof. split; reflexivity. Qed.

End DeclarationFacts.

(** ** The gatherer: sessions *)

Section GathererSessions.

Import Styles JS.

Lemma settled_appends (w : World) (k : nat) (styleHeader : loc) (text : string)
    (parseTree : list DeclarationNode) :
  Invariant w ->
  nth_error (requests w) k = Some styleHeader ->
  activeStyles (fst (step (TextSettled k (Some (text, Some parseTree))) w))
  = activeStyles w ++ [styleHeader].
Proof.
  intros Hw Hk. simpl. rewrite Hk. unfold activeStyles, deref. simpl.
  rewrite lookup_alter_eq, (invariant_active w Hw). reflexivity.
Qed.

Lemma step_removed_keeps {A} (f : World -> A) (id : string) (w : World) :
  (forall a w', f (setArrays a w') = f w') ->
  f (fst (step (StyleSheetRemoved id) w)) = f w.
Proof.
  intros Hf. simpl.
  pose proof (emit_keeps f (onStyleSheetRemoved id) (fun w' => Hf _ w')
    (removedListeners w) w) as H.
  destruct (emit _ _ w). exact H.
Qed.

Lemma setArrays_same (w : World) : setArrays (arrays w) w = w.
Proof. destruct w. reflexivity. Qed.

Lemma removed_without_match (id : string) (w : World) :
  Invariant w ->
  Forall (fun s => hasId (objects w) id s = false) (activeStyles w) ->
  step (StyleSheetRemoved id) w = (w, Done).
Proof.
  intros Hw Hno. simpl. rewrite emit_skip; [reflexivity|].
  unfold onStyleSheetRemoved.
  assert (alter (spliceFirst (objects w) id) (_activeStyles (this w)) (arrays w)
          = arrays w) as ->.
  { apply map_eq. intros l. destruct (decide (_activeStyles (this w) = l)) as [<-|Hne].
    - rewrite lookup_alter_eq, (invariant_active w Hw). simpl.
      rewrite spliceFirst_no_match by assumption. reflexivity.
    - rewrite lookup_alter_ne by assumption. reflexivity. }
  rewrite setArrays_same. reflexivity.
Qed.

(** A notification of a removed sheet does not reach the requests in
    flight: they all stay, so the record of a sheet that is removed before
    its text arrives still enters the active collection when the text
    arrives; and when no active record has the id, the notification changes
    nothing at all. *)
Theorem removal_does_not_cancel_a_request (events : list Event) (id : string) (k : nat)
    (styleHeader : loc) (text : string) (parseTree : list DeclarationNode) :
  let w := run events constructor in
  let w1 := fst (step (StyleSheetRemoved id) w) in
  let w2 := fst (step (TextSettled k (Some (text, Some parseTree))) w1) in
  nth_error (requests w) k = Some styleHeader ->
  requests w1 = requests w /\
  (Forall (fun s => hasId (objects w) id s = false) (activeStyles w) ->
     step (StyleSheetRemoved id) w = (w, Done)) /\
  activeStyles w2 = activeStyles w1 ++ [styleHeader].
Proof.
  intros w w1 w2 Hk.
  pose proof (run_invariant events constructor constructor_invariant) as Hw. fold w in Hw.
  assert (requests w1 = requests w) as Hreq.
  { apply (step_removed_keeps requests). reflexivity. }
  split; [exact Hreq|]. split.
  - apply removed_without_match. assumption.
  - apply settled_appends.
    + apply step_invariant. assumption.
    + fold w1. rewrite Hreq. assumption.
Qed.

Lemma hasId_idOf (o : gmap loc StyleHeader) (id : string) (s : loc) :
  hasId o id s = true <-> idOf o s = Some id.
Proof.
  unfold hasId, idOf. destruct (o !! s) as [sheet|]; [|split; discriminate].
  rewrite String.eqb_eq. split; congruence.
Qed.

Lemma spliceFirst_unique (o : gmap loc StyleHeader) (id : string) (a : list loc) :
  List.NoDup (List.map (idOf o) a) ->
  Forall (fun s => hasId o id s = false) (spliceFirst o id a).
Proof.
  induction a as [|s a IH]; simpl; intros Hnd; [constructor|].
  apply List.NoDup_cons_iff in Hnd as [Hs Hnd].
  destruct (hasId o id s) eqn:E.
  - apply List.Forall_forall. intros s' Hs'.
    destruct (hasId o id s') eqn:E'; [|reflexivity].
    apply hasId_idOf in E, E'. exfalso. apply Hs. rewrite E, <- E'.
    apply in_map. assumption.
  - constructor; [assumption | apply IH; assumption].
Qed.

Lemma spliceFirst_keeps_others (o : gmap loc StyleHeader) (id : string) (a : list loc)
    (s : loc) :
  In s a -> hasId o id s = false -> In s (spliceFirst o id a).
Proof.
  induction a as [|x a IH]; simpl; intros Hin Hs; [assumption|].
  destruct (hasId o id x) eqn:E.
  - destruct Hin as [->|Hin]; [congruence | assumption].
  - destruct Hin as [->|Hin]; [left; reflexivity | right; apply IH; assumption].
Qed.

(** When the active records have different ids, the handler of a removed
    sheet leaves no record with that id, and keeps every record with another
    id. *)
Theorem removed_sheet_with_unique_id_is_gone (events : list Event) (id : string) :
  let w := run events constructor in
  let w' := fst (onStyleSheetRemoved id w) in
  List.NoDup (List.map (idOf (objects w)) (activeStyles w)) ->
  Forall (fun s => hasId (objects w') id s = false) (activeStyles w') /\
  (forall s, In s (activeStyles w) -> hasId (objects w) id s = false ->
             In s (activeStyles w')).
Proof.
  intros w w' Hnd.
  pose proof (run_invariant events constructor constructor_invariant) as Hw. fold w in Hw.
  assert (activeStyles w' = spliceFirst (objects w) id (activeStyles w)) as Heq.
  { unfold w', activeStyles, deref. simpl.
    rewrite lookup_alter_eq, (invariant_active w Hw). reflexivity. }
  rewrite Heq. split.
  - apply spliceFirst_unique. assumption.
  - intros s. apply spliceFirst_keeps_others.
Qed.

Lemma step_listeners (e : Event) (w : World) :
  let w' := fst (step e w) in
  (removedListeners w = addedListeners w -> removedListeners w' = addedListeners w') /\
  (addedListeners w' <= addedListeners w
                        + match e with BeforePass => 1 | _ => 0 end)%nat.
Proof.
  destruct e as [|h|id|k outcome| | |]; simpl.
  - split; [intros ->; reflexivity | lia].
  - pose proof (emit_keeps (fun w => (addedListeners w, removedListeners w))
      (onStyleSheetAdded (nextObject w))) as H.
    specialize (H ltac:(intros w0; unfold onStyleSheetAdded;
                        destruct (notRegular _ _); [reflexivity|];
                        destruct (negb _); reflexivity)
                  (addedListeners w) (snd (newStyleHeader h w))).
    simpl in H. destruct (emit _ _ _) as [w1 c]. simpl in *.
    injection H as Ha Hr. split; [intros; congruence | lia].
  - pose proof (emit_keeps (fun w => (addedListeners w, removedListeners w))
      (onStyleSheetRemoved id) (fun _ => eq_refl) (removedListeners w) w) as H.
    destruct (emit _ _ w) as [w1 c]. simpl in *.
    injection H as Ha Hr. split; [intros; congruence | lia].
  - destruct (nth_error (requests w) k); [|simpl; split; [tauto | lia]].
    destruct outcome as [[text [tree|]]|]; simpl; split; try tauto; lia.
  - unfold endStylesCollect. destruct (negb _ || _); simpl; split;
      try tauto; try lia; try (intros ->; reflexivity).
  - unfold afterPass, endStylesCollect. destruct (negb _ || _); simpl; split;
      try tauto; try lia; try (intros ->; reflexivity).
  - destruct (reactions w); simpl; split; try tauto; lia.
Qed.

Lemma beginCount_snoc (events : list Event) (e : Event) :
  beginCount (events ++ [e])
  = (beginCount events + match e with BeforePass => 1 | _ => 0 end)%nat.
Proof.
  unfold beginCount. rewrite List.filter_app, List.length_app.
  destruct e; reflexivity.
Qed.

(** The two handlers are registered together, at most once for each call
    of [beforePass]. *)
Lemma run_listeners (events : list Event) :
  removedListeners (run events constructor) = addedListeners (run events constructor) /\
  (addedListeners (run events constructor) <= beginCount events)%nat.
Proof.
  induction events as [|e events [IHeq IHle]] using rev_ind.
  - split; [reflexivity | simpl; lia].
  - rewrite run_snoc, beginCount_snoc.
    destruct (step_listeners e (run events constructor)) as [Heq Hle].
    split; [apply Heq; assumption | lia].
Qed.

(** In a run that calls [beforePass] at most once, once [endStylesCollect]
    has resolved no notification is handled any more: one of a removed sheet
    changes nothing, and one of an added sheet starts no request and leaves
    the active collection as it is. *)
Theorem no_notification_is_handled_after_end (events : list Event) (w' : World) (r : loc) :
  (beginCount events <= 1)%nat ->
  endStylesCollect (run events constructor) = (w', Resolved r) ->
  (forall id, step (StyleSheetRemoved id) w' = (w', Done)) /\
  (forall h, requests (fst (step (StyleSheetAdded h) w')) = requests w' /\
             activeStyles (fst (step (StyleSheetAdded h) w')) = activeStyles w').
Proof.
  intros Hcount Hend. destruct (run_listeners events) as [Heq Hle].
  unfold endStylesCollect in Hend.
  destruct (negb _ || _); [discriminate|]. injection Hend as <- <-.
  assert (addedListeners (run events constructor) <= 1)%nat as Hone by lia.
  split.
  - intros id. simpl. rewrite Heq.
    destruct (addedListeners (run events constructor)) as [|[|n]]; try lia; reflexivity.
  - intros h. split; [|apply step_added_activeStyles].
    simpl. destruct (addedListeners (run events constructor)) as [|[|n]]; try lia; reflexivity.
Qed.

Lemma removeNth_out_of_range {A} (k : nat) (l : list A) :
  nth_error l k = None -> removeNth k l = l.
Proof.
  intros H. apply nth_error_None in H. unfold removeNth.
  rewrite List.firstn_all2, List.skipn_all2 by lia. apply app_nil_r.
Qed.

(** A request that is rejected, or whose text does not parse, adds no
    record and removes none: the arrays stay as they are, the request is
    gone, the other requests stay in flight in their order, and nothing is
    thrown to the caller. *)
Theorem failed_request_adds_nothing (events : list Event) (k : nat)
    (unparsed : option string) :
  let outcome := match unparsed with
                 | None => None
                 | Some text => Some (text, None)
                 end in
  let w := run events constructor in
  let w' := fst (step (TextSettled k outcome) w) in
  arrays w' = arrays w /\
  activeStyles w' = activeStyles w /\
  requests w' = removeNth k (requests w) /\
  snd (step (TextSettled k outcome) w) = Done.
Proof.
  intros outcome w w'. unfold w', outcome. simpl.
  destruct (nth_error (requests w) k) as [styleHeader|] eqn:Hk.
  - destruct unparsed as [text|]; repeat split.
  - destruct unparsed as [text|]; repeat split;
      symmetry; apply removeNth_out_of_range; assumption.
Qed.

Lemma afterPass_reaction_artifact (events : list Event) :
  let w := run events constructor in
  let w' := run [AfterPass; RunReaction] w in
  reactions w = [] ->
  (~ In BeforePass events \/ activeStyles w = [] ->
     artifact (this w') = ArtifactMinusOne) /\
  (In BeforePass events -> activeStyles w <> [] ->
     artifact (this w')
     = ArtifactSheets (uniqueStylesheets (objects w) (activeStyles w))) /\
  objects w' = objects w /\
  arrays w' = arrays w.
Proof.
  intros w w' Hreact.
  pose proof (run_invariant events constructor constructor_invariant) as Hw. fold w in Hw.
  pose proof (run_driver events) as Hd. fold w in Hd.
  unfold w'. simpl. unfold afterPass, endStylesCollect.
  destruct (driver (this w)) eqn:D; destruct (activeStyles w) as [|s a] eqn:Ea; simpl;
    rewrite Hreact; simpl.
  - repeat split; try reflexivity. intros _ H. contradiction.
  - repeat split; try reflexivity.
    + intros [H|H]; [|discriminate]. exfalso. apply H, Hd. reflexivity.
    + intros _ _. unfold deref. simpl. rewrite (invariant_active w Hw), Ea. reflexivity.
  - repeat split; try reflexivity. intros _ H. contradiction.
  - repeat split; try reflexivity. intros H _. apply Hd in H. discriminate.
Qed.

(** [afterPass] and its reaction, with no other reaction waiting: the
    artifact is [-1] exactly when [beforePass] was never called or the active
    collection is empty, and otherwise the active collection without its
    duplicates. *)
Theorem afterPass_stores_the_artifact (events : list Event) :
  let w := run events constructor in
  let w' := run [AfterPass; RunReaction] w in
  reactions w = [] ->
  (~ In BeforePass events \/ activeStyles w = [] ->
     artifact (this w') = ArtifactMinusOne) /\
  (In BeforePass events -> activeStyles w <> [] ->
     artifact (this w')
     = ArtifactSheets (uniqueStylesheets (objects w) (activeStyles w))) /\
  objects w' = objects w /\
  arrays w' = arrays w.
Proof. exact (afterPass_reaction_artifact events). Qed.

End GathererSessions.

(** ** The gatherer: the order of the artifact *)

Section ArtifactOrder.

Import Styles JS.

Lemma firstOccurrences_In (x : option string) (l : list (option string)) :
  In x (firstOccurrences l) <-> In x l.
Proof.
  induction l as [|y l IH]; simpl; [tauto|].
  rewrite filter_In, IH. split.
  - intros [H|[H _]]; [left | right]; assumption.
  - intros [H|H]; [left; assumption|].
    destruct (sameContent x y) eqn:E.
    + apply sameContent_eq in E. left. congruence.
    + right. split; [assumption | reflexivity].
Qed.

Lemma firstOccurrences_snoc (l : list (option string)) (k : option string) :
  firstOccurrences (l ++ [k])
  = if existsb (fun y => sameContent y k) l then firstOccurrences l
    else firstOccurrences l ++ [k].
Proof.
  induction l as [|x l IH]; simpl; [reflexivity|].
  rewrite IH. destruct (sameContent x k) eqn:E; simpl.
  - apply sameContent_eq in E. subst k.
    destruct (existsb _ l); [reflexivity|].
    rewrite List.filter_app. simpl.
    rewrite (proj2 (sameContent_eq x x) eq_refl). simpl.
    rewrite app_nil_r. reflexivity.
  - destruct (existsb _ l); [reflexivity|].
    rewrite List.filter_app. simpl.
    assert (sameContent k x = false) as ->.
    { destruct (sameContent k x) eqn:E'; [|reflexivity].
      apply sameContent_eq in E'. subst k.
      rewrite (proj2 (sameContent_eq x x) eq_refl) in E. discriminate. }
    reflexivity.
Qed.

Lemma existsb_sameContent (l : list (option string)) (k : option string) :
  existsb (fun y => sameContent y k) l = true <-> In k l.
Proof.
  rewrite existsb_exists. split.
  - intros (y & Hy & E). apply sameContent_eq in E. congruence.
  - intros H. exists k. split; [assumption | apply sameContent_eq; reflexivity].
Qed.

(** The keys of the [Map] are the keys of the entries, each at its first
    occurrence. *)
Lemma newMap_keys {V} (entries : list (option string * V)) :
  List.map fst (newMap sameContent entries) = firstOccurrences (List.map fst entries).
Proof.
  induction entries as [|[k v] entries IH] using rev_ind; [reflexivity|].
  rewrite newMap_snoc, List.map_app.
  change (List.map fst [(k, v)]) with [k]. rewrite firstOccurrences_snoc. simpl.
  destruct (existsb _ (List.map fst entries)) eqn:E.
  - apply existsb_sameContent in E.
    rewrite (mapSet_keys sameContent sameContent_eq); [assumption|].
    rewrite IH. apply firstOccurrences_In. assumption.
  - rewrite (mapSet_keys_fresh sameContent sameContent_eq).
    + rewrite List.map_app, IH. reflexivity.
    + rewrite IH, firstOccurrences_In. intros H.
      apply existsb_sameContent in H. congruence.
Qed.

(** The artifact lists no record twice, lists only records of the active
    collection, and is in the order in which the contents first occur in the
    active collection (each content with its last record). *)
Theorem artifact_is_in_order_of_first_occurrence
    (o : gmap loc StyleHeader) (stylesheets : list loc) :
  List.map (contentOf o) (uniqueStylesheets o stylesheets)
    = firstOccurrences (List.map (contentOf o) stylesheets) /\
  List.NoDup (uniqueStylesheets o stylesheets) /\
  (forall s, In s (uniqueStylesheets o stylesheets) -> In s stylesheets).
Proof.
  assert (List.map (contentOf o) (uniqueStylesheets o stylesheets)
          = firstOccurrences (List.map (contentOf o) stylesheets)) as Hkeys.
  { unfold uniqueStylesheets, mapValues.
    set (entries := List.map (fun s => (contentOf o s, s)) stylesheets).
    assert (List.map (contentOf o) (List.map snd (newMap sameContent entries))
            = List.map fst (newMap sameContent entries)) as ->.
    { rewrite List.map_map. apply List.map_ext_in. intros [k s] Hin. simpl.
      apply (newMap_In sameContent sameContent_eq) in Hin as (b & a & Heq & _).
      assert (In (k, s) entries) as Hentry.
      { rewrite Heq. apply in_app_iff. right. left. reflexivity. }
      apply in_map_iff in Hentry as (s0 & [= <- <-] & _). reflexivity. }
    rewrite newMap_keys. unfold entries. rewrite List.map_map. reflexivity. }
  split; [exact Hkeys|]. split.
  - eapply List.NoDup_map_inv. apply uniqueStylesheets_NoDup.
  - intros s Hs. apply uniqueStylesheets_In in Hs as (before & after & -> & _).
    apply in_app_iff. right. left. reflexivity.
Qed.

End ArtifactOrder.

(** ** The audits: [audit] *)

Section AuditFacts.

Import JS UsesNewFlexBox.

Lemma filter_filter {A} (f : A -> bool) (l : list A) :
  List.filter f (List.filter f l) = List.filter f l.
Proof.
  induction l as [|x l IH]; simpl; [reflexivity|].
  destruct (f x) eqn:E; simpl; rewrite ?E, IH; reflexivity.
Qed.

Lemma filtered_filtered (propName propVal : option string) (sheet : StyleHeader) :
  filtered propName propVal (filtered propName propVal sheet)
  = filtered propName propVal sheet.
Proof.
  unfold filtered. simpl. destruct (parsedContent sheet); simpl; [|reflexivity].
  rewrite filter_filter. reflexivity.
Qed.

Lemma allValues_filtered (propName propVal : option string) (sheet : StyleHeader) :
  allValues sheet -> allValues (filtered propName propVal sheet).
Proof.
  intros (items & Hitems & Hvals). unfold filtered. rewrite Hitems. simpl.
  eexists. split; [reflexivity|].
  apply List.Forall_forall. intros item [Hin _]%filter_In.
  rewrite List.Forall_forall in Hvals. apply Hvals. assumption.
Qed.

(** A second query with the same name and value finds what the first one
    found and changes nothing more. *)
Lemma filterSheets_twice (propName propVal : option string) (stylesheets : list loc)
    (st : gmap loc StyleHeader) :
  List.NoDup stylesheets ->
  (forall s, In s stylesheets -> exists sheet, st !! s = Some sheet /\ allValues sheet) ->
  exists st1,
    filterSheets (usesProperty propName propVal) stylesheets st
      = (st1, Return (List.filter (hasMatch propName propVal st) stylesheets)) /\
    filterSheets (usesProperty propName propVal) stylesheets st1
      = (st1, Return (List.filter (hasMatch propName propVal st) stylesheets)) /\
    (forall s, In s stylesheets -> st1 !! s = filtered propName propVal <$> st !! s) /\
    (forall s, ~ In s stylesheets -> st1 !! s = st !! s).
Proof.
  intros Hnd Hwf.
  destruct (filterSheets_filtered propName propVal stylesheets st Hnd Hwf)
    as (st1 & Hrun & Hin & Hout).
  exists st1. split; [exact Hrun|]. split; [|split; assumption].
  assert (forall s, In s stylesheets ->
            exists sheet, st1 !! s = Some sheet /\ allValues sheet) as Hwf1.
  { intros s Hs. destruct (Hwf s Hs) as (sheet & Hst & Hv).
    exists (filtered propName propVal sheet). rewrite (Hin s Hs), Hst.
    split; [reflexivity | apply allValues_filtered; assumption]. }
  destruct (filterSheets_filtered propName propVal stylesheets st1 Hnd Hwf1)
    as (st2 & Hrun2 & Hin2 & Hout2).
  rewrite Hrun2. f_equal.
  - apply map_eq. intros s. destruct (in_dec Nat.eq_dec s stylesheets) as [Hs|Hs].
    + rewrite (Hin2 s Hs), (Hin s Hs). destruct (st !! s) as [sheet|]; simpl; [|reflexivity].
      rewrite filtered_filtered. reflexivity.
    + apply Hout2. assumption.
  - f_equal. apply List.filter_ext_in. intros s Hs. unfold hasMatch.
    rewrite (Hin s Hs). destruct (st !! s) as [sheet|]; simpl; [|reflexivity].
    destruct (parsedContent sheet) as [items|]; simpl; [|reflexivity].
    rewrite filter_filter. reflexivity.
Qed.

(** The audit after the query has returned. *)
Lemma audit_of_query {Result : Type} (gen : AuditResult -> Result)
    (stylesheets sheets : list loc) (st st1 : gmap loc StyleHeader) :
  filterSheets (usesProperty (Some "display"%string) (Some "box"%string)) stylesheets st
    = (st1, Return sheets) ->
  UsesNewFlexBoxAudit.audit gen (Styles.ArtifactSheets stylesheets) st
  = (st1,
     bind (AuditBody.pushSheets getFormattedStyleContent st1 sheets) (fun urlList =>
     Return (gen {| rawValue := RawBoolean (List.length sheets =? 0)%nat;
                    debugString := None;
                    extendedInfo := Some urlList |}))).
Proof.
  intros H. unfold UsesNewFlexBoxAudit.audit, AuditBody.audit, stylesheetsThatUsedProperty.
  simpl. rewrite H. reflexivity.
Qed.

Lemma audit_copies {Result : Type} (gen : AuditResult -> Result)
    (artifactsStyles : Styles.Artifact) (st : gmap loc StyleHeader) :
  WillChangeAudit.audit gen artifactsStyles st
  = UsesNewFlexBoxAudit.audit gen artifactsStyles st.
Proof. reflexivity. Qed.

(** An audit leaves the records filtered, but the sibling audit that runs
    after it on the same artifact returns what it would have returned on the
    untouched artifact, and changes nothing more (records that all have
    values, each listed once). *)
Theorem second_audit_sees_the_same {Result1 Result2 : Type}
    (gen1 : AuditResult -> Result1) (gen2 : AuditResult -> Result2)
    (stylesheets : list loc) (st : gmap loc StyleHeader) :
  List.NoDup stylesheets ->
  (forall s, In s stylesheets -> exists sheet, st !! s = Some sheet /\ allValues sheet) ->
  let st1 := fst (UsesNewFlexBoxAudit.audit gen1 (Styles.ArtifactSheets stylesheets) st) in
  WillChangeAudit.audit gen2 (Styles.ArtifactSheets stylesheets) st1
  = (st1, snd (WillChangeAudit.audit gen2 (Styles.ArtifactSheets stylesheets) st)).
Proof.
  intros Hnd Hwf.
  destruct (filterSheets_twice (Some "display"%string) (Some "box"%string) stylesheets st
              Hnd Hwf) as (st1 & Hrun & Hrun1 & _).
  change (@WillChangeAudit.audit Result2 gen2) with (@UsesNewFlexBoxAudit.audit Result2 gen2).
  cbv zeta. rewrite (audit_of_query gen1 _ _ _ _ Hrun). cbn [fst].
  rewrite (audit_of_query gen2 _ _ _ _ Hrun1), (audit_of_query gen2 _ _ _ _ Hrun).
  reflexivity.
Qed.

Lemma pushProps_urls (format : string -> Declaration -> Completion string)
    (sourceURL : string) (content : option string) (items : list Declaration)
    (entries : list UrlListItem) :
  AuditBody.pushProps format sourceURL content items = Return entries ->
  List.map url entries = List.map (fun _ => sourceURL) items.
Proof.
  revert entries. induction items as [|props items IH]; intros entries H; simpl in H.
  - injection H as <-. reflexivity.
  - destruct content as [text|]; [|discriminate].
    destruct (format text props) as [formatted|e]; [|discriminate]. simpl in H.
    destruct (AuditBody.pushProps format sourceURL (Some text) items) as [rest|e];
      [|discriminate].
    injection H as <-. simpl. rewrite (IH rest eq_refl). reflexivity.
Qed.

Lemma pushSheets_urls (format : string -> Declaration -> Completion string)
    (st : gmap loc StyleHeader) (sheets : list loc) (urlList : list UrlListItem) :
  AuditBody.pushSheets format st sheets = Return urlList ->
  List.map url urlList
  = flat_map (fun s => List.map (fun _ => sourceOf st s) (itemsOf st s)) sheets.
Proof.
  revert urlList. induction sheets as [|s sheets IH]; intros urlList H; simpl in H.
  - injection H as <-. reflexivity.
  - simpl. unfold sourceOf at 1, itemsOf at 1.
    destruct (st !! s) as [sheet|]; [|discriminate].
    destruct (parsedContent sheet) as [items|]; [|discriminate].
    destruct (AuditBody.pushProps _ _ _ items) as [entries|e] eqn:E; [|discriminate].
    simpl in H.
    destruct (AuditBody.pushSheets format st sheets) as [rest|e]; [|discriminate].
    injection H as <-. rewrite List.map_app, (pushProps_urls _ _ _ _ _ E), (IH rest eq_refl).
    reflexivity.
Qed.

Lemma flat_map_filter {A B} (f : A -> bool) (g : A -> list B) (l : list A) :
  (forall x, In x l -> f x = false -> g x = []) ->
  flat_map g (List.filter f l) = flat_map g l.
Proof.
  induction l as [|x l IH]; intros H; simpl; [reflexivity|].
  rewrite <- IH by (intros y Hy; apply H; right; assumption).
  destruct (f x) eqn:E; simpl; [reflexivity|].
  rewrite (H x (or_introl eq_refl) E). reflexivity.
Qed.

Lemma flat_map_ext_In {A B} (f g : A -> list B) (l : list A) :
  (forall x, In x l -> f x = g x) -> flat_map f l = flat_map g l.
Proof.
  induction l as [|x l IH]; intros H; simpl; [reflexivity|].
  rewrite (H x (or_introl eq_refl)), IH; [reflexivity|].
  intros y Hy. apply H. right. assumption.
Qed.

Lemma length_filter_zero {A} (f : A -> bool) (l : list A) :
  (List.length (List.filter f l) =? 0)%nat = forallb (fun x => negb (f x)) l.
Proof.
  induction l as [|x l IH]; simpl; [reflexivity|].
  destruct (f x); simpl; [reflexivity | assumption].
Qed.

(** The verdict of the audit on records that all have values, each listed
    once: unless the formatting of an excerpt throws, the raw value is true
    exactly when no sheet has a declaration whose name is [display] and
    whose value starts with [box], and the URL list has one entry for each
    such declaration, in the order of the sheets and of their declarations,
    with the [sourceURL] of its sheet; and it can only throw when some sheet
    has such a declaration. *)
Theorem audit_verdict {Result : Type} (gen : AuditResult -> Result)
    (stylesheets : list loc) (st : gmap loc StyleHeader) :
  List.NoDup stylesheets ->
  (forall s, In s stylesheets -> exists sheet, st !! s = Some sheet /\ allValues sheet) ->
  let display := Some "display"%string in
  let box := Some "box"%string in
  let passes := forallb (fun s => negb (hasMatch display box st s)) stylesheets in
  let outcome := snd (UsesNewFlexBoxAudit.audit gen (Styles.ArtifactSheets stylesheets) st) in
  (exists urlList,
     outcome = Return (gen {| rawValue := RawBoolean passes;
                              debugString := None;
                              extendedInfo := Some urlList |}) /\
     List.map url urlList
     = flat_map (fun s => List.map (fun _ => sourceOf st s) (matchesOf display box st s))
                stylesheets)
  \/ (passes = false /\ outcome = Throw TypeError).
Proof.
  intros Hnd Hwf display box passes outcome.
  destruct (filterSheets_filtered display box stylesheets st Hnd Hwf)
    as (st1 & Hrun & Hin & Hout).
  unfold outcome. rewrite (audit_of_query gen _ _ _ _ Hrun). simpl.
  rewrite length_filter_zero. fold passes.
  destruct (AuditBody.pushSheets _ st1 _) as [urlList|[]] eqn:E; simpl.
  - left. exists urlList. split; [reflexivity|].
    rewrite (pushSheets_urls _ _ _ _ E).
    rewrite <- (flat_map_filter (hasMatch display box st)
                  (fun s => List.map (fun _ => sourceOf st s) (matchesOf display box st s))).
    + apply flat_map_ext_In. intros s [Hs _]%filter_In.
      unfold sourceOf, itemsOf, matchesOf. rewrite (Hin s Hs).
      destruct (st !! s) as [sheet|]; simpl; [|reflexivity].
      destruct (parsedContent sheet); reflexivity.
    + intros s Hs Hno. unfold hasMatch, matchesOf in *.
      destruct (st !! s) as [sheet|]; [|reflexivity].
      destruct (parsedContent sheet) as [items|]; [|reflexivity].
      destruct (List.filter _ items); [reflexivity | discriminate].
  - right. split; [|reflexivity].
    destruct passes eqn:P; [|reflexivity]. exfalso.
    unfold passes in P. rewrite <- length_filter_zero in P.
    destruct (List.filter _ stylesheets); [discriminate | discriminate].
Qed.

End AuditFacts.

(** ** The audits: sessions without sheets, and a query that throws *)

Section AuditEdges.

Import JS UsesNewFlexBox.

(** After a session in which [beforePass] was never called, or that has no
    active record at [afterPass], both audits report the raw value [-1] with
    the message that the gatherer did not run, and touch no record. *)
Theorem audit_after_a_session_without_sheets {Result : Type}
    (gen : AuditResult -> Result) (events : list Styles.Event) :
  let w := Styles.run events Styles.constructor in
  let w' := Styles.run [Styles.AfterPass; Styles.RunReaction] w in
  Styles.reactions w = [] ->
  ~ In Styles.BeforePass events \/ Styles.activeStyles w = [] ->
  Styles.artifact (Styles.this w') = Styles.ArtifactMinusOne /\
  UsesNewFlexBoxAudit.audit gen (Styles.artifact (Styles.this w')) (Styles.objects w')
    = (Styles.objects w', Return (gen AuditBody.didNotRun)) /\
  WillChangeAudit.audit gen (Styles.artifact (Styles.this w')) (Styles.objects w')
    = (Styles.objects w', Return (gen AuditBody.didNotRun)) /\
  debugString AuditBody.didNotRun = Some "Styles gatherer did not run"%string /\
  rawValue AuditBody.didNotRun = RawMinusOne.
Proof.
  intros w w' Hreact Hempty.
  destruct (afterPass_reaction_artifact events Hreact) as (Hminus & _).
  fold w in Hminus. fold w' in Hminus. specialize (Hminus Hempty).
  split; [exact Hminus|]. rewrite Hminus. repeat split.
Qed.

Lemma filter_throws (propName propVal : option string) (items : list Declaration)
    (item : Declaration) :
  In item items ->
  val (property item) = None ->
  filter (usesProperty propName propVal) items = Throw TypeError.
Proof.
  intros Hin Hval. induction items as [|x items IH]; [destruct Hin|].
  simpl. destruct Hin as [->|Hin].
  - unfold usesProperty. rewrite Hval. reflexivity.
  - destruct (usesProperty propName propVal x) as [keep|[]]; [|reflexivity].
    simpl. rewrite (IH Hin). reflexivity.
Qed.

Lemma filterSheets_app (callback : Declaration -> Completion bool) (l1 l2 : list loc) :
  forall st : gmap loc StyleHeader,
  filterSheets callback (l1 ++ l2) st =
  match filterSheets callback l1 st with
  | (st1, Throw e) => (st1, Throw e)
  | (st1, Return kept1) =>
      match filterSheets callback l2 st1 with
      | (st2, Throw e) => (st2, Throw e)
      | (st2, Return kept2) => (st2, Return (kept1 ++ kept2))
      end
  end.
Proof.
  induction l1 as [|s l1 IH]; intros st; simpl.
  - destruct (filterSheets callback l2 st) as [st2 [kept2|e]]; reflexivity.
  - destruct (filterSheet callback s st) as [st1 [keep|e]]; [|reflexivity].
    rewrite IH. destruct (filterSheets callback l1 st1) as [st2 [kept1|e]]; [|reflexivity].
    destruct (filterSheets callback l2 st2) as [st3 [kept2|e]]; [|reflexivity].
    destruct keep; reflexivity.
Qed.

(** When the query throws at a record with a declaration without value, the
    records before it in the list are already left with their matching
    declarations only; that record and all the other objects are as they
    were. *)
Theorem query_that_throws_leaves_earlier_records_filtered
    (before after : list loc) (s : loc) (propName propVal : option string)
    (st : gmap loc StyleHeader) (sheet : StyleHeader)
    (items : list Declaration) (item : Declaration) :
  truthy propName || truthy propVal = true ->
  List.NoDup before ->
  ~ In s before ->
  (forall x, In x before -> exists sheet', st !! x = Some sheet' /\ allValues sheet') ->
  st !! s = Some sheet ->
  parsedContent sheet = Some items ->
  In item items ->
  val (property item) = None ->
  exists st',
    stylesheetsThatUsedProperty (before ++ s :: after) propName propVal st
      = (st', Throw TypeError) /\
    (forall x, In x before -> st' !! x = filtered propName propVal <$> st !! x) /\
    (forall x, ~ In x before -> st' !! x = st !! x).
Proof.
  intros Hq Hnd Hs Hwf Hst Hitems Hitem Hval.
  destruct (filterSheets_filtered propName propVal before st Hnd Hwf)
    as (st1 & Hrun & Hin & Hout).
  exists st1. split; [|split; assumption].
  assert (stylesheetsThatUsedProperty (before ++ s :: after) propName propVal st
          = filterSheets (usesProperty propName propVal) (before ++ s :: after) st) as ->.
  { unfold stylesheetsThatUsedProperty.
    destruct (truthy propName), (truthy propVal); try discriminate; reflexivity. }
  rewrite filterSheets_app, Hrun. simpl. unfold filterSheet.
  rewrite (Hout s Hs), Hst, Hitems, (filter_throws _ _ _ _ Hitem Hval). reflexivity.
Qed.

End AuditEdges.

(** ** The gatherer: what is recorded of a declaration *)

Section DeclarationEdges.

Import JS Styles.

Lemma split_not_nil (sep : ascii) (s : string) : split sep s <> [].
Proof.
  destruct s as [|c s]; simpl; [discriminate|].
  destruct (Ascii.eqb c sep); [discriminate|].
  destruct (split sep s); discriminate.
Qed.

Lemma split_without_separator (sep : ascii) (s : string) :
  occurrences sep s = 0%nat -> split sep s = [s].
Proof.
  induction s as [|c s IH]; simpl; [reflexivity|].
  destruct (Ascii.eqb c sep); [discriminate|]. simpl. intros H.
  rewrite (IH H). reflexivity.
Qed.

Lemma split_pieces_without_separator (sep : ascii) (s piece : string) :
  In piece (split sep s) -> occurrences sep piece = 0%nat.
Proof.
  revert piece. induction s as [|c s IH]; simpl; intros piece Hin.
  - destruct Hin as [<-|[]]. reflexivity.
  - destruct (Ascii.eqb c sep) eqn:E.
    + destruct Hin as [<-|Hin]; [reflexivity | apply IH; assumption].
    + destruct (split sep s) as [|p rest] eqn:Hs.
      * destruct Hin as [<-|[]]. simpl. rewrite E. reflexivity.
      * destruct Hin as [<-|Hin].
        -- simpl. rewrite E. apply IH. left. reflexivity.
        -- apply IH. right. assumption.
Qed.

Lemma occurrences_first_colon (text : string) :
  occurrences ":" text =
  match snd (Specification.splitOnFirstColon text) with
  | None => 0%nat
  | Some after => S (occurrences ":" after)
  end.
Proof.
  induction text as [|c text IH]; simpl; [reflexivity|].
  destruct (Ascii.eqb c ":"); simpl; [reflexivity|].
  rewrite IH. destruct (Specification.splitOnFirstColon text) as [before after].
  reflexivity.
Qed.

(** The recorded value is [undefined] exactly when the text of the
    declaration has no colon. *)
Theorem value_is_undefined_iff_no_colon (node : DeclarationNode) :
  val (property (getCSSProp node)) = None <-> occurrences ":" (nodeText node) = 0%nat.
Proof.
  unfold getCSSProp. simpl. rewrite split_first_colon, occurrences_first_colon. simpl.
  destruct (snd (Specification.splitOnFirstColon (nodeText node))) as [after|].
  - pose proof (split_not_nil ":" after) as Hne.
    destruct (split ":" after) as [|p rest]; [contradiction|].
    simpl. split; discriminate.
  - simpl. split; reflexivity.
Qed.

(** For a text with at most one colon, what is recorded is the split on
    the first colon, both sides trimmed. *)
Theorem property_of_a_text_with_one_colon (node : DeclarationNode) :
  (occurrences ":" (nodeText node) <= 1)%nat ->
  property (getCSSProp node) = Specification.propertyOf (nodeText node).
Proof.
  intros Hone. unfold getCSSProp, Specification.propertyOf. simpl.
  rewrite split_first_colon. rewrite occurrences_first_colon in Hone.
  destruct (Specification.splitOnFirstColon (nodeText node)) as [before [after|]]; simpl in *.
  - rewrite split_without_separator by lia. reflexivity.
  - reflexivity.
Qed.

Lemma trimStart_first (s : string) (c : ascii) :
  firstUnit (trimStart s) = Some c -> isWhiteSpace c = false.
Proof.
  induction s as [|x s IH]; simpl; [discriminate|].
  destruct (isWhiteSpace x) eqn:E; [assumption|].
  simpl. intros [= <-]. assumption.
Qed.

Lemma trimEnd_first (s : string) (c : ascii) :
  firstUnit (trimEnd s) = Some c -> firstUnit s = Some c.
Proof.
  destruct s as [|x s]; simpl; [discriminate|].
  destruct (trimEnd s); [destruct (isWhiteSpace x)|]; simpl; congruence.
Qed.

Lemma trimEnd_last (s : string) (c : ascii) :
  lastUnit (trimEnd s) = Some c -> isWhiteSpace c = false.
Proof.
  revert c. induction s as [|x s IH]; simpl; intros c; [discriminate|].
  destruct (trimEnd s) as [|y t] eqn:Ht.
  - destruct (isWhiteSpace x) eqn:E; simpl; [discriminate|]. intros [= <-]. assumption.
  - intros H. apply IH. exact H.
Qed.

Lemma trim_trimmed (s : string) : trimmed (trim s).
Proof.
  unfold trim. split; intros c H.
  - apply (trimStart_first s). apply trimEnd_first. assumption.
  - apply (trimEnd_last _ _ H).
Qed.

Lemma trimStart_occurrences (c : ascii) (s : string) :
  (occurrences c (trimStart s) <= occurrences c s)%nat.
Proof.
  induction s as [|x s IH]; simpl; [lia|].
  destruct (isWhiteSpace x); simpl; lia.
Qed.

Lemma trimEnd_occurrences (c : ascii) (s : string) :
  (occurrences c (trimEnd s) <= occurrences c s)%nat.
Proof.
  induction s as [|x s IH]; simpl; [lia|].
  destruct (trimEnd s) as [|y t]; [destruct (isWhiteSpace x)|]; simpl in *; lia.
Qed.

Lemma trim_occurrences (c : ascii) (s : string) :
  occurrences c s = 0%nat -> occurrences c (trim s) = 0%nat.
Proof.
  intros H. unfold trim.
  pose proof (trimEnd_occurrences c (trimStart s)).
  pose proof (trimStart_occurrences c s). lia.
Qed.

(** The recorded name and the recorded value neither start nor end with
    white space, and neither contains a colon. *)
Theorem recorded_name_and_value_are_trimmed_without_colon (node : DeclarationNode) :
  let p := property (getCSSProp node) in
  trimmed (name p) /\
  occurrences ":" (name p) = 0%nat /\
  (forall v, val p = Some v -> trimmed v /\ occurrences ":" v = 0%nat).
Proof.
  unfold getCSSProp. simpl.
  pose proof (split_pieces_without_separator ":" (nodeText node)) as Hpieces.
  pose proof (split_not_nil ":" (nodeText node)) as Hne.
  destruct (split ":" (nodeText node)) as [|piece rest]; [contradiction|]. simpl.
  split; [apply trim_trimmed|]. split.
  - apply trim_occurrences, Hpieces. left. reflexivity.
  - intros v Hv. destruct rest as [|second rest]; [discriminate|].
    simpl in Hv. injection Hv as <-. split; [apply trim_trimmed|].
    apply trim_occurrences, Hpieces. right. left. reflexivity.
Qed.

End DeclarationEdges.

(** ** The audits: when the formatting throws, and what the excerpt is *)

Section ExcerptEdges.

Import JS UsesNewFlexBox.

Lemma length_split (sep : ascii) (s : string) :
  List.length (split sep s) = S (occurrences sep s).
Proof.
  induction s as [|c s IH]; simpl; [reflexivity|].
  destruct (Ascii.eqb c sep); simpl; [rewrite IH; reflexivity|].
  destruct (split sep s) as [|p rest]; simpl in *; [discriminate | assumption].
Qed.

Lemma index_None {A} (l : list A) (i : Z) :
  index l i = None <-> i < 0 \/ Z.of_nat (List.length l) <= i.
Proof.
  unfold index. destruct (i <? 0) eqn:E.
  - apply Z.ltb_lt in E. split; [left; assumption | reflexivity].
  - apply Z.ltb_ge in E. rewrite nth_error_None. split; intros H.
    + right. lia.
    + destruct H as [H|H]; lia.
Qed.

(** The formatting throws exactly when the range is within one line and
    the content has no line with that number (the lines are one more than the
    line feeds of the content); a range over several lines never throws. *)
Theorem formatting_throws_iff_the_line_is_missing
    (content : string) (parsedContent : Declaration) :
  let range := declarationRange parsedContent in
  getFormattedStyleContent content parsedContent = Throw TypeError <->
  startLine range = endLine range /\
  (startLine range < 0 \/ Z.of_nat (occurrences LF content) < startLine range).
Proof.
  unfold getFormattedStyleContent, rule. simpl.
  destruct (startLine (declarationRange parsedContent)
            =? endLine (declarationRange parsedContent)) eqn:E.
  - apply Z.eqb_eq in E.
    destruct (index (split LF content) (startLine (declarationRange parsedContent)))
      as [line|] eqn:Hline; simpl.
    + split; [discriminate|]. intros [_ H]. exfalso.
      assert (index (split LF content) (startLine (declarationRange parsedContent)) = None)
        as Hnone.
      { apply index_None. rewrite length_split. lia. }
      congruence.
    + apply index_None in Hline. rewrite length_split in Hline.
      split; [|reflexivity]. intros _. split; [assumption | lia].
  - apply Z.eqb_neq in E. simpl. split; [discriminate | tauto].
Qed.

Lemma substring_start (m : nat) (s : string) :
  exists after, s = (String.substring 0 m s ++ after)%string.
Proof.
  revert m. induction s as [|c s IH]; intros m.
  - exists EmptyString. destruct m; reflexivity.
  - destruct m as [|m]; simpl.
    + exists (String c s). reflexivity.
    + destruct (IH m) as (after & H). exists after.
      change (String c s = String c (String.substring 0 m s ++ after)%string).
      f_equal. exact H.
Qed.

Lemma substring_part (n m : nat) (s : string) :
  exists before after, s = (before ++ String.substring n m s ++ after)%string.
Proof.
  revert n. induction s as [|c s IH]; intros n.
  - exists EmptyString, EmptyString. destruct n, m; reflexivity.
  - destruct n as [|n].
    + destruct (substring_start m (String c s)) as (after & H).
      exists EmptyString, after. exact H.
    + destruct (IH n) as (before & after & H).
      exists (String c before), after.
      change (String c s
              = String c (before ++ String.substring n m s ++ after)%string).
      f_equal. exact H.
Qed.

Lemma substring_length_le (n m : nat) (s : string) :
  (String.length (String.substring n m s) <= m)%nat.
Proof.
  revert n m. induction s as [|c s IH]; intros n m.
  - destruct n, m; simpl; lia.
  - destruct n as [|n]; simpl.
    + destruct m as [|m]; simpl; [lia|]. specialize (IH 0%nat m). lia.
    + apply IH.
Qed.

Lemma substring_swap (s : string) (a b : Z) : substring s a b = substring s b a.
Proof.
  unfold substring. rewrite (Z.min_comm (clamp _ b)), (Z.max_comm (clamp _ b)).
  reflexivity.
Qed.

(** Whatever the two columns are (negative, past the end of the line, or
    the larger one first), the rule of a range within one line is a part of
    that line, is no longer than the distance between the columns, and is the
    same when the two columns are exchanged. *)
Theorem rule_within_one_line_is_part_of_the_line
    (content : string) (range : Range) (line : string) :
  startLine range = endLine range ->
  index (split LF content) (startLine range) = Some line ->
  exists excerpt before after,
    rule content range = Return excerpt /\
    line = (before ++ excerpt ++ after)%string /\
    Z.of_nat (String.length excerpt) <= Z.abs (endColumn range - startColumn range) /\
    rule content {| startLine := startLine range; startColumn := endColumn range;
                    endLine := endLine range; endColumn := startColumn range |}
    = Return excerpt.
Proof.
  intros Heq Hline.
  exists (substring line (startColumn range) (endColumn range)).
  destruct (substring_part
              (Z.to_nat (Z.min (clamp (Z.of_nat (String.length line)) (startColumn range))
                               (clamp (Z.of_nat (String.length line)) (endColumn range))))
              (Z.to_nat (Z.max (clamp (Z.of_nat (String.length line)) (startColumn range))
                               (clamp (Z.of_nat (String.length line)) (endColumn range))
                         - Z.min (clamp (Z.of_nat (String.length line)) (startColumn range))
                                 (clamp (Z.of_nat (String.length line)) (endColumn range))))
              line) as (before & after & Hpart).
  exists before, after. split; [|split; [|split]].
  - unfold rule. apply Z.eqb_eq in Heq. rewrite Heq, Hline. reflexivity.
  - exact Hpart.
  - unfold substring.
    pose proof (substring_length_le
      (Z.to_nat (Z.min (clamp (Z.of_nat (String.length line)) (startColumn range))
                       (clamp (Z.of_nat (String.length line)) (endColumn range))))
      (Z.to_nat (Z.max (clamp (Z.of_nat (String.length line)) (startColumn range))
                       (clamp (Z.of_nat (String.length line)) (endColumn range))
                 - Z.min (clamp (Z.of_nat (String.length line)) (startColumn range))
                         (clamp (Z.of_nat (String.length line)) (endColumn range))))
      line) as Hle.
    cbv zeta. unfold clamp in *. lia.
  - unfold rule. simpl. apply Z.eqb_eq in Heq. rewrite Heq, Hline.
    rewrite substring_swap. reflexivity.
Qed.

End ExcerptEdges.

(** ** The commands that list the audits and the trace categories *)

Section CliFacts.

Import JS Cli.

Lemma length_append (a b : string) :
  String.length (a ++ b) = (String.length a + String.length b)%nat.
Proof. induction a as [|c a IH]; simpl; [reflexivity | rewrite IH; reflexivity]. Qed.

Lemma append_assoc (a b c : string) : ((a ++ b) ++ c = a ++ (b ++ c))%string.
Proof.
  induction a as [|x a IH]; [reflexivity|].
  change (String x ((a ++ b) ++ c) = String x (a ++ (b ++ c)))%string.
  rewrite IH. reflexivity.
Qed.

Lemma append_cons (x : ascii) (a b : string) :
  (String x a ++ b)%string = String x (a ++ b).
Proof. reflexivity. Qed.

Lemma append_nil (b : string) : ("" ++ b)%string = b.
Proof. reflexivity. Qed.

Ltac normalise_append :=
  repeat (rewrite append_assoc || rewrite append_cons || rewrite append_nil).

Lemma replaceJsExtension_removes (name : string) :
  replaceJsExtension (name ++ ".js") = name.
Proof.
  induction name as [|c name IH]; [reflexivity|].
  change (replaceJsExtension (String c (name ++ ".js")) = String c name).
  cbn [replaceJsExtension].
  destruct (String.eqb_spec (String c (name ++ ".js")) ".js") as [E|_].
  - apply (f_equal String.length) in E. simpl in E.
    rewrite length_append in E. simpl in E. lia.
  - rewrite IH. reflexivity.
Qed.

Lemma replaceJsExtension_keeps (i : string) :
  (forall name, i <> (name ++ ".js")%string) -> replaceJsExtension i = i.
Proof.
  induction i as [|c i IH]; intros H; [reflexivity|].
  cbn [replaceJsExtension].
  destruct (String.eqb_spec (String c i) ".js") as [E|_].
  - exfalso. apply (H EmptyString). exact E.
  - rewrite IH; [reflexivity|]. intros name ->. apply (H (String c name)). reflexivity.
Qed.

(** The replacement takes the extension [.js] away once and only at the
    very end of a name: a name that ends in [.js] loses these three code
    units and nothing else, even where [.js] occurs in it before, and a name
    is unchanged exactly when it does not end in [.js]. *)
Theorem extension_is_removed_once_at_the_end (name i : string) :
  replaceJsExtension (name ++ ".js") = name /\
  (replaceJsExtension i = i <-> forall name', i <> (name' ++ ".js")%string).
Proof.
  split; [apply replaceJsExtension_removes|]. split.
  - intros H name' ->. rewrite replaceJsExtension_removes in H.
    apply (f_equal String.length) in H. rewrite length_append in H. simpl in H. lia.
  - apply replaceJsExtension_keeps.
Qed.

Lemma occurrences_append (c : ascii) (a b : string) :
  occurrences c (a ++ b) = (occurrences c a + occurrences c b)%nat.
Proof.
  induction a as [|x a IH]; [reflexivity|].
  change (occurrences c (String x (a ++ b))
          = (occurrences c (String x a) + occurrences c b)%nat).
  simpl. rewrite IH. lia.
Qed.

Lemma quoteUnit_one_line (c : ascii) : occurrences LF (JSON.quoteUnit c) = 0%nat.
Proof.
  destruct c as [b0 b1 b2 b3 b4 b5 b6 b7].
  destruct b0, b1, b2, b3, b4, b5, b6, b7; vm_compute; reflexivity.
Qed.

Lemma quote_one_line (s : string) : occurrences LF (JSON.quote s) = 0%nat.
Proof.
  unfold JSON.quote.
  change (occurrences LF (JSON.quoteUnits s ++ String JSON.quoteMark "") = 0%nat).
  rewrite occurrences_append. simpl.
  induction s as [|c s IH]; [reflexivity|].
  simpl. rewrite occurrences_append, quoteUnit_one_line. exact IH.
Qed.

Lemma split_line (a b : string) :
  occurrences LF a = 0%nat -> split LF (a ++ String LF b) = a :: split LF b.
Proof.
  induction a as [|c a IH]; intros H; [reflexivity|].
  change (split LF (String c (a ++ String LF b)) = String c a :: split LF b).
  simpl in *. destruct (Ascii.eqb c LF); [discriminate|].
  rewrite IH by exact H. reflexivity.
Qed.

Lemma split_elements (elements : list string) (rest : string) :
  elements <> [] ->
  split LF ("    " ++ join ("," ++ newline ++ "    ") (List.map JSON.quote elements)
            ++ String LF rest)
  = elementLines elements ++ split LF rest.
Proof.
  induction elements as [|x elements IH]; intros Hne; [congruence|].
  destruct elements as [|y elements].
  - simpl List.map. cbn [join elementLines].
    rewrite <- append_assoc. rewrite split_line; [reflexivity|].
    rewrite occurrences_append, quote_one_line. reflexivity.
  - change (List.map JSON.quote (x :: y :: elements))
      with (JSON.quote x :: List.map JSON.quote (y :: elements)).
    change (join ("," ++ newline ++ "    ")
                 (JSON.quote x :: List.map JSON.quote (y :: elements)))
      with (JSON.quote x ++ ("," ++ newline ++ "    ") ++
            join ("," ++ newline ++ "    ") (List.map JSON.quote (y :: elements)))%string.
    change (elementLines (x :: y :: elements))
      with (("    " ++ JSON.quote x ++ ",")%string :: elementLines (y :: elements)).
    replace ("    " ++
             (JSON.quote x ++ ("," ++ newline ++ "    ") ++
              join ("," ++ newline ++ "    ") (List.map JSON.quote (y :: elements))) ++
             String LF rest)%string
      with (("    " ++ JSON.quote x ++ ",") ++
            String LF ("    " ++
              join ("," ++ newline ++ "    ") (List.map JSON.quote (y :: elements)) ++
              String LF rest))%string.
    + rewrite split_line.
      * rewrite IH by discriminate. reflexivity.
      * rewrite !occurrences_append, quote_one_line. reflexivity.
    + normalise_append. reflexivity.
Qed.

(** The output of the command that lists the audits, line by line: an
    opening brace, the key [audits], one line for each audit in the order
    of the list, its name without the extension and quoted, and the two
    closing lines; with no audit the array is on the line of the key.  The
    exit code is 0. *)
Theorem ListAudits_prints_one_audit_a_line (getAuditList : list string) :
  split LF (stdout (ListAudits getAuditList)) =
  match getAuditList with
  | [] => ["{"; ("  " ++ JSON.quote "audits" ++ ": []")%string; "}"]
  | _ => List.app ["{"; ("  " ++ JSON.quote "audits" ++ ": [")%string]
           (List.app (elementLines (List.map replaceJsExtension getAuditList))
                     ["  ]"; "}"])
  end /\
  exitCode (ListAudits getAuditList) = Some 0.
Proof.
  split; [|reflexivity].
  destruct getAuditList as [|i rest]; [vm_compute; reflexivity|].
  unfold ListAudits, stdout, JSON.stringify, JSON.serializeArray.
  set (audits := List.map replaceJsExtension (i :: rest)).
  assert (audits <> []) as Hne by discriminate.
  destruct (List.map JSON.quote audits) as [|q qs] eqn:Hq.
  { destruct audits; [congruence | discriminate]. }
  rewrite <- Hq. clear Hq q qs.
  change ("{" ++ newline ++ "  " ++ JSON.quote "audits" ++ ": " ++
          ("[" ++ newline ++ ("  " ++ "  ") ++
           join ("," ++ newline ++ "  " ++ "  ") (List.map JSON.quote audits) ++
           newline ++ "  " ++ "]") ++ newline ++ "}")%string
    with ("{" ++ String LF (("  " ++ JSON.quote "audits" ++ ": ") ++
          ("[" ++ String LF ("    " ++
           join ("," ++ newline ++ "    ") (List.map JSON.quote audits) ++
           String LF "  ]")) ++ String LF "}"))%string.
  rewrite (split_line "{") by reflexivity.
  replace (("  " ++ JSON.quote "audits" ++ ": ") ++
           ("[" ++ String LF ("    " ++
             join ("," ++ newline ++ "    ") (List.map JSON.quote audits) ++
             String LF "  ]")) ++ String LF "}")%string
    with (("  " ++ JSON.quote "audits" ++ ": [") ++
          String LF ("    " ++
             join ("," ++ newline ++ "    ") (List.map JSON.quote audits) ++
             String LF ("  ]" ++ String LF "}")))%string.
  - rewrite split_line by (vm_compute; reflexivity).
    rewrite split_elements by exact Hne.
    reflexivity.
  - normalise_append. reflexivity.
Qed.




End CliFacts.

(** ** The properties above on concrete sessions, queries and texts *)

Section SessionExamples.

Import JS Styles Fixture.

Lemma removal_does_not_cancel_a_request_witness :
  let events := [BeforePass; StyleSheetAdded (sheetHeader "1")] in
  let w := run events constructor in
  let w1 := fst (step (StyleSheetRemoved "1") w) in
  let w2 := fst (step (TextSettled 0 (Some ("a{}"%string, Some []))) w1) in
  nth_error (requests w) 0 = Some 0%nat /\
  (requests w1 = requests w /\
   (Forall (fun s => hasId (objects w) "1" s = false) (activeStyles w) ->
      step (StyleSheetRemoved "1") w = (w, Done)) /\
   activeStyles w2 = activeStyles w1 ++ [0%nat]).
Proof.
  intros events w w1 w2.
  assert (nth_error (requests w) 0 = Some 0%nat) as H by (vm_compute; reflexivity).
  split; [exact H|].
  exact (removal_does_not_cancel_a_request events "1" 0 0%nat "a{}" [] H).
Defined.

Lemma removed_sheet_with_unique_id_is_gone_witness :
  let events := [BeforePass; StyleSheetAdded (sheetHeader "1");
                 StyleSheetAdded (sheetHeader "2");
                 TextSettled 0 (Some emptyRule); TextSettled 0 (Some otherRule)] in
  let w := run events constructor in
  let w' := fst (onStyleSheetRemoved "1" w) in
  List.NoDup (List.map (idOf (objects w)) (activeStyles w)) /\
  (Forall (fun s => hasId (objects w') "1" s = false) (activeStyles w') /\
   (forall s, In s (activeStyles w) -> hasId (objects w) "1" s = false ->
              In s (activeStyles w'))).
Proof.
  intros events w w'.
  assert (List.NoDup (List.map (idOf (objects w)) (activeStyles w))) as H.
  { vm_compute. repeat constructor; simpl; intuition discriminate. }
  split; [exact H|].
  exact (removed_sheet_with_unique_id_is_gone events "1" H).
Defined.

Lemma no_notification_is_handled_after_end_witness :
  let events := [BeforePass; StyleSheetAdded (sheetHeader "1");
                 TextSettled 0 (Some emptyRule)] in
  let w' := fst (endStylesCollect (run events constructor)) in
  (beginCount events <= 1)%nat /\
  endStylesCollect (run events constructor) = (w', Resolved 0%nat) /\
  (forall id, step (StyleSheetRemoved id) w' = (w', Done)) /\
  (forall h, requests (fst (step (StyleSheetAdded h) w')) = requests w' /\
             activeStyles (fst (step (StyleSheetAdded h) w')) = activeStyles w').
Proof.
  intros events w'.
  assert (beginCount events <= 1)%nat as Hb by (vm_compute; lia).
  assert (endStylesCollect (run events constructor) = (w', Resolved 0%nat)) as He
    by (vm_compute; reflexivity).
  split; [exact Hb|]. split; [exact He|].
  exact (no_notification_is_handled_after_end events w' 0%nat Hb He).
Defined.

Lemma afterPass_stores_the_artifact_witness :
  let events := [BeforePass; StyleSheetAdded (sheetHeader "1");
                 TextSettled 0 (Some emptyRule)] in
  let w := run events constructor in
  let w' := run [AfterPass; RunReaction] w in
  reactions w = [] /\
  ((~ In BeforePass events \/ activeStyles w = [] ->
      artifact (this w') = ArtifactMinusOne) /\
   (In BeforePass events -> activeStyles w <> [] ->
      artifact (this w')
      = ArtifactSheets (uniqueStylesheets (objects w) (activeStyles w))) /\
   objects w' = objects w /\
   arrays w' = arrays w).
Proof.
  intros events w w'.
  assert (reactions w = []) as H by (vm_compute; reflexivity).
  split; [exact H|].
  exact (afterPass_stores_the_artifact events H).
Defined.

Lemma audit_after_a_session_without_sheets_witness :
  let events := [StyleSheetAdded (sheetHeader "1")] in
  let w := run events constructor in
  let w' := run [AfterPass; RunReaction] w in
  reactions w = [] /\
  (~ In BeforePass events \/ activeStyles w = []) /\
  artifact (this w') = ArtifactMinusOne /\
  UsesNewFlexBoxAudit.audit (fun result => result) (artifact (this w')) (objects w')
    = (objects w', Return AuditBody.didNotRun) /\
  WillChangeAudit.audit (fun result => result) (artifact (this w')) (objects w')
    = (objects w', Return AuditBody.didNotRun) /\
  debugString AuditBody.didNotRun = Some "Styles gatherer did not run"%string /\
  rawValue AuditBody.didNotRun = RawMinusOne.
Proof.
  intros events w w'.
  assert (reactions w = []) as H by (vm_compute; reflexivity).
  assert (~ In BeforePass events \/ activeStyles w = []) as Hs.
  { left. intros [E|[]]. discriminate E. }
  split; [exact H|]. split; [exact Hs|].
  exact (audit_after_a_session_without_sheets (fun result => result) events H Hs).
Defined.

End SessionExamples.

Section AuditExamples.

Import JS UsesNewFlexBox.

Lemma second_audit_sees_the_same_witness :
  let st : gmap loc StyleHeader := {[ 0%nat := Fixture.sheet ]} in
  let gen := fun result : AuditResult => result in
  let st1 := fst (UsesNewFlexBoxAudit.audit gen (Styles.ArtifactSheets [0%nat]) st) in
  WillChangeAudit.audit gen (Styles.ArtifactSheets [0%nat]) st1
  = (st1, snd (WillChangeAudit.audit gen (Styles.ArtifactSheets [0%nat]) st)).
Proof.
  intros st gen.
  assert (List.NoDup [0%nat]) as Hnd by (repeat constructor; simpl; tauto).
  assert (forall s, In s [0%nat] -> exists sheet, st !! s = Some sheet /\ allValues sheet)
    as Hwf.
  { intros s [<-|[]]. exists Fixture.sheet. split; [reflexivity|].
    exists [Fixture.displayBox; Fixture.colorRed]. split; [reflexivity|].
    repeat constructor; discriminate. }
  exact (second_audit_sees_the_same gen gen [0%nat] st Hnd Hwf).
Defined.

Lemma audit_verdict_witness :
  let st : gmap loc StyleHeader := {[ 0%nat := Fixture.sheet ]} in
  let gen := fun result : AuditResult => result in
  let display := Some "display"%string in
  let box := Some "box"%string in
  let passes := forallb (fun s => negb (hasMatch display box st s)) [0%nat] in
  let outcome := snd (UsesNewFlexBoxAudit.audit gen (Styles.ArtifactSheets [0%nat]) st) in
  (exists urlList,
     outcome = Return (gen {| rawValue := RawBoolean passes;
                              debugString := None;
                              extendedInfo := Some urlList |}) /\
     List.map url urlList
     = flat_map (fun s => List.map (fun _ => sourceOf st s) (matchesOf display box st s))
                [0%nat])
  \/ (passes = false /\ outcome = Throw TypeError).
Proof.
  intros st gen.
  assert (List.NoDup [0%nat]) as Hnd by (repeat constructor; simpl; tauto).
  assert (forall s, In s [0%nat] -> exists sheet, st !! s = Some sheet /\ allValues sheet)
    as Hwf.
  { intros s [<-|[]]. exists Fixture.sheet. split; [reflexivity|].
    exists [Fixture.displayBox; Fixture.colorRed]. split; [reflexivity|].
    repeat constructor; discriminate. }
  exact (audit_verdict gen [0%nat] st Hnd Hwf).
Defined.

Lemma query_that_throws_leaves_earlier_records_filtered_witness :
  let st : gmap loc StyleHeader :=
    <[ 1%nat := Fixture.bareSheet ]> {[ 0%nat := Fixture.sheet ]} in
  let propName := Some "color"%string in
  exists st',
    stylesheetsThatUsedProperty ([0%nat] ++ 1%nat :: []) propName None st
      = (st', Throw TypeError) /\
    (forall x, In x [0%nat] -> st' !! x = filtered propName None <$> st !! x) /\
    (forall x, ~ In x [0%nat] -> st' !! x = st !! x).
Proof.
  intros st propName.
  assert (List.NoDup [0%nat]) as Hnd by (repeat constructor; simpl; tauto).
  assert (~ In 1%nat [0%nat]) as Hnin by (intros [E|[]]; discriminate E).
  assert (forall x, In x [0%nat] -> exists sheet', st !! x = Some sheet' /\ allValues sheet')
    as Hwf.
  { intros x [<-|[]]. exists Fixture.sheet. split; [vm_compute; reflexivity|].
    exists [Fixture.displayBox; Fixture.colorRed]. split; [reflexivity|].
    repeat constructor; discriminate. }
  assert (st !! 1%nat = Some Fixture.bareSheet) as Hs by (vm_compute; reflexivity).
  assert (In (Styles.getCSSProp Fixture.bareNode)
             [Fixture.colorRed; Styles.getCSSProp Fixture.bareNode]) as Hin
    by (right; left; reflexivity).
  exact (query_that_throws_leaves_earlier_records_filtered
           [0%nat] [] 1%nat propName None st Fixture.bareSheet
           [Fixture.colorRed; Styles.getCSSProp Fixture.bareNode]
           (Styles.getCSSProp Fixture.bareNode)
           eq_refl Hnd Hnin Hwf Hs eq_refl Hin eq_refl).
Defined.

Lemma property_of_a_text_with_one_colon_witness :
  let node := {| nodeText := " display : box ";
                 nodeRange := Fixture.range 0 4 0 18;
                 parentSelectors := "a" |} in
  (occurrences ":" (nodeText node) <= 1)%nat /\
  property (Styles.getCSSProp node) = Specification.propertyOf (nodeText node).
Proof.
  intros node.
  assert (occurrences ":" (nodeText node) <= 1)%nat as H by (vm_compute; lia).
  split; [exact H|].
  exact (property_of_a_text_with_one_colon node H).
Defined.

Lemma rule_within_one_line_is_part_of_the_line_witness :
  let range := Fixture.range 1 40 1 (-3) in
  startLine range = endLine range /\
  index (split LF Fixture.multiLineCss) (startLine range) = Some "  display:"%string /\
  exists excerpt before after,
    rule Fixture.multiLineCss range = Return excerpt /\
    "  display:"%string = (before ++ excerpt ++ after)%string /\
    Z.of_nat (String.length excerpt) <= Z.abs (endColumn range - startColumn range) /\
    rule Fixture.multiLineCss
         {| startLine := startLine range; startColumn := endColumn range;
            endLine := endLine range; endColumn := startColumn range |}
    = Return excerpt.
Proof.
  intros range.
  assert (index (split LF Fixture.multiLineCss) (startLine range)
          = Some "  display:"%string) as H by (vm_compute; reflexivity).
  split; [reflexivity|]. split; [exact H|].
  exact (rule_within_one_line_is_part_of_the_line Fixture.multiLineCss range
           "  display:" eq_refl H).
Defined.

End AuditExamples.

(** ** From a session of the gatherer to the audits *)

Section SessionToAudit.

Import JS Styles.

Lemma getCSSProp_has_value (node : DeclarationNode) :
  (0 < occurrences ":" (nodeText node))%nat ->
  val (property (getCSSProp node)) <> None.
Proof.
  unfold getCSSProp. simpl. rewrite split_first_colon, occurrences_first_colon. simpl.
  destruct (snd (Specification.splitOnFirstColon (nodeText node))) as [after|].
  - intros _. pose proof (split_not_nil ":" after) as Hne.
    destruct (split ":" after) as [|piece rest]; [contradiction|]. discriminate.
  - lia.
Qed.

Lemma step_storeHasValues (e : Event) (w : World) :
  declarationsHaveColons [e] ->
  storeHasValues (objects w) ->
  storeHasValues (objects (fst (step e w))).
Proof.
  intros Hcolons Hw. destruct e as [|h|id|k outcome| | |]; simpl.
  - exact Hw.
  - pose proof (emit_keeps objects (onStyleSheetAdded (nextObject w))) as H.
    specialize (H ltac:(intros w0; unfold onStyleSheetAdded;
                        destruct (notRegular _ _); [reflexivity|];
                        destruct (negb _); reflexivity)
                  (addedListeners w) (snd (newStyleHeader h w))).
    simpl in H. destruct (emit _ _ _) as [w1 c]. simpl in *. rewrite H.
    intros s sheet items Hs Hitems.
    destruct (decide (nextObject w = s)) as [<-|Hne].
    + rewrite lookup_insert_eq in Hs. injection Hs as <-. discriminate.
    + rewrite lookup_insert_ne in Hs by assumption. exact (Hw s sheet items Hs Hitems).
  - pose proof (emit_keeps objects (onStyleSheetRemoved id) (fun _ => eq_refl)
      (removedListeners w) w) as H.
    destruct (emit _ _ w) as [w1 c]. simpl in *. rewrite H. exact Hw.
  - destruct (nth_error (requests w) k) as [styleHeader|]; [|exact Hw].
    destruct outcome as [[text [parseTree|]]|]; simpl; [| |exact Hw].
    + intros s sheet items Hs Hitems.
      destruct (decide (styleHeader = s)) as [<-|Hne].
      * rewrite !lookup_alter_eq in Hs.
        destruct (objects w !! styleHeader) as [sheet0|]; [|discriminate].
        simpl in Hs. injection Hs as <-. simpl in Hitems. injection Hitems as <-.
        unfold getCSSPropsInStyleSheet. apply Forall_map, List.Forall_forall.
        intros node Hnode. apply getCSSProp_has_value.
        apply (Hcolons k text parseTree node); [left; reflexivity | exact Hnode].
      * rewrite !lookup_alter_ne in Hs by assumption. exact (Hw s sheet items Hs Hitems).
    + intros s sheet items Hs Hitems.
      destruct (decide (styleHeader = s)) as [<-|Hne].
      * rewrite lookup_alter_eq in Hs.
        destruct (objects w !! styleHeader) as [sheet0|] eqn:E; [|discriminate].
        simpl in Hs. injection Hs as <-. simpl in Hitems.
        exact (Hw styleHeader sheet0 items E Hitems).
      * rewrite lookup_alter_ne in Hs by assumption. exact (Hw s sheet items Hs Hitems).
  - unfold endStylesCollect. destruct (negb _ || _); exact Hw.
  - unfold afterPass, endStylesCollect. destruct (negb _ || _); exact Hw.
  - destruct (reactions w); exact Hw.
Qed.

Lemma run_storeHasValues (events : list Event) :
  declarationsHaveColons events ->
  storeHasValues (objects (run events constructor)).
Proof.
  induction events as [|e events IH] using rev_ind; intros Hcolons.
  - intros s sheet items Hs. simpl in Hs. rewrite lookup_empty in Hs. discriminate.
  - rewrite run_snoc. apply step_storeHasValues.
    + intros k text parseTree node [E|[]] Hnode.
      apply (Hcolons k text parseTree node); [|exact Hnode].
      apply in_app_iff. right. left. exact E.
    + apply IH. intros k text parseTree node Hin Hnode.
      apply (Hcolons k text parseTree node); [|exact Hnode].
      apply in_app_iff. left. exact Hin.
Qed.

(** After a session that has collected at least one sheet, and in which
    every declaration that the parser delivered has a colon, the artifact is
    a list of references that is not empty, has no reference twice, and
    points to records whose declarations all have a value: what the
    properties of the audits above ask of their input.  So the query of either
    audit returns on this artifact. *)
Theorem artifact_of_a_session_suits_the_audits
    (events : list Event) (propName propVal : option string) :
  let w := run events constructor in
  let w' := run [AfterPass; RunReaction] w in
  reactions w = [] ->
  In BeforePass events ->
  activeStyles w <> [] ->
  declarationsHaveColons events ->
  exists stylesheets,
    artifact (this w') = ArtifactSheets stylesheets /\
    stylesheets <> [] /\
    List.NoDup stylesheets /\
    (forall s, In s stylesheets ->
       In s (activeStyles w) /\
       exists sheet, objects w' !! s = Some sheet /\ allValues sheet) /\
    snd (UsesNewFlexBox.stylesheetsThatUsedProperty stylesheets propName propVal
           (objects w'))
    = Return (if truthy propName || truthy propVal
              then List.filter (hasMatch propName propVal (objects w')) stylesheets
              else []).
Proof.
  intros w w' Hreact Hbegin Hactive Hcolons.
  destruct (afterPass_reaction_artifact events Hreact) as (_ & Hart & Hobj & _).
  fold w in Hart, Hobj. fold w' in Hart, Hobj.
  specialize (Hart Hbegin Hactive).
  pose proof (run_invariant events constructor constructor_invariant) as Hw. fold w in Hw.
  pose proof (run_storeHasValues events Hcolons) as Hvalues. fold w in Hvalues.
  set (stylesheets := uniqueStylesheets (objects w) (activeStyles w)) in *.
  assert (forall s, In s stylesheets ->
            In s (activeStyles w) /\
            exists sheet, objects w' !! s = Some sheet /\ allValues sheet) as Hwf.
  { intros s Hs. apply uniqueStylesheets_In in Hs.
    destruct Hs as (before & after & Hsplit & _).
    assert (In s (activeStyles w)) as Hin.
    { rewrite Hsplit. apply in_app_iff. right. left. reflexivity. }
    split; [exact Hin|].
    pose proof (invariant_active w Hw) as Ha.
    destruct Hw as [(a & Ha' & Hres) _ _ _]. rewrite Ha in Ha'. injection Ha' as <-.
    rewrite List.Forall_forall in Hres.
    destruct (Hres s Hin) as (sheet & Hsheet & _ & _ & [items Hitems]).
    exists sheet. rewrite Hobj. split; [exact Hsheet|].
    exists items. split; [exact Hitems|]. exact (Hvalues s sheet items Hsheet Hitems). }
  assert (List.NoDup stylesheets) as Hnd.
  { apply (NoDup_map_inv (contentOf (objects w))). apply uniqueStylesheets_NoDup. }
  exists stylesheets. split; [exact Hart|]. split; [|split; [exact Hnd|split; [exact Hwf|]]].
  - destruct (activeStyles w) as [|s0 a] eqn:Ea; [congruence|].
    destruct (uniqueStylesheets_complete (objects w) (s0 :: a) s0 (or_introl eq_refl))
      as (s' & Hs' & _).
    fold stylesheets in Hs'. intros E. rewrite E in Hs'. exact Hs'.
  - unfold UsesNewFlexBox.stylesheetsThatUsedProperty.
    destruct (truthy propName) eqn:Hn, (truthy propVal) eqn:Hv; simpl;
      try reflexivity.
    all: destruct (filterSheets_filtered propName propVal stylesheets (objects w') Hnd
                  (fun s Hs => proj2 (Hwf s Hs))) as (st' & Hrun & _);
      rewrite Hrun; reflexivity.
Qed.

End SessionToAudit.

Section SessionToAuditExamples.

Import JS Styles Fixture.

Lemma artifact_of_a_session_suits_the_audits_witness :
  let node := {| nodeText := "display: box";
                 nodeRange := range 0 4 0 16;
                 parentSelectors := "a" |} in
  let events := [BeforePass; StyleSheetAdded (sheetHeader "1");
                 TextSettled 0 (Some ("a { display: box }"%string, Some [node]))] in
  let propName := Some "display"%string in
  let propVal := Some "box"%string in
  let w := run events constructor in
  let w' := run [AfterPass; RunReaction] w in
  reactions w = [] /\
  In BeforePass events /\
  activeStyles w <> [] /\
  declarationsHaveColons events /\
  exists stylesheets,
    artifact (this w') = ArtifactSheets stylesheets /\
    stylesheets <> [] /\
    List.NoDup stylesheets /\
    (forall s, In s stylesheets ->
       In s (activeStyles w) /\
       exists sheet, objects w' !! s = Some sheet /\ allValues sheet) /\
    snd (UsesNewFlexBox.stylesheetsThatUsedProperty stylesheets propName propVal
           (objects w'))
    = Return (if truthy propName || truthy propVal
              then List.filter (hasMatch propName propVal (objects w')) stylesheets
              else []).
Proof.
  intros node events propName propVal w w'.
  assert (reactions w = []) as Hr by (vm_compute; reflexivity).
  assert (In BeforePass events) as Hb by (left; reflexivity).
  assert (activeStyles w <> []) as Ha by (vm_compute; discriminate).
  assert (declarationsHaveColons events) as Hc.
  { intros k text parseTree n [E|[E|[E|[]]]] Hn; try discriminate E.
    injection E as _ _ <-. destruct Hn as [<-|[]]. vm_compute. lia. }
  split; [exact Hr|]. split; [exact Hb|]. split; [exact Ha|]. split; [exact Hc|].
  exact (artifact_of_a_session_suits_the_audits events propName propVal Hr Hb Ha Hc).
Defined.

End SessionToAuditExamples.

(** ** The query on any list of records that have values *)

Section QueryOnAnyList.

Import JS UsesNewFlexBox.



Lemma hasMatch_insert (propName propVal : option string) (st : gmap loc StyleHeader)
    (s : loc) (sheet : StyleHeader) (x : loc) :
  st !! s = Some sheet ->
  hasMatch propName propVal (<[ s := filtered propName propVal sheet ]> st) x
  = hasMatch propName propVal st x.
Proof.
  intros Hs. unfold hasMatch. destruct (decide (s = x)) as [<-|Hne].
  - rewrite lookup_insert_eq, Hs. simpl.
    destruct (parsedContent sheet) as [items|]; simpl; [|reflexivity].
    rewrite filter_filter. reflexivity.
  - rewrite lookup_insert_ne by exact Hne. reflexivity.
Qed.


(** The query on records that all have values, in any list (a record may
    be listed more than once). *)
Lemma filterSheets_filtered_any (propName propVal : option string) (stylesheets : list loc) :
  forall st : gmap loc StyleHeader,
  (forall s, In s stylesheets -> exists sheet, st !! s = Some sheet /\ allValues sheet) ->
  exists st',
    filterSheets (usesProperty propName propVal) stylesheets st
      = (st', Return (List.filter (hasMatch propName propVal st) stylesheets)) /\
    (forall s, In s stylesheets -> st' !! s = filtered propName propVal <$> st !! s) /\
    (forall s, ~ In s stylesheets -> st' !! s = st !! s).
Proof.
  induction stylesheets as [|s l IH]; intros st Hwf.
  - exists st. split; [reflexivity|]. split; [intros s []|reflexivity].
  - destruct (Hwf s (or_introl eq_refl)) as (sheet & Hs & Hall).
    set (st1 := <[ s := filtered propName propVal sheet ]> st).
    assert (forall x, In x l -> exists sheet', st1 !! x = Some sheet' /\ allValues sheet')
      as Hwf1.
    { intros x Hx. unfold st1. destruct (decide (s = x)) as [<-|Hne].
      - exists (filtered propName propVal sheet).
        split; [apply lookup_insert_eq | apply allValues_filtered; exact Hall].
      - rewrite lookup_insert_ne by exact Hne. apply Hwf. right. exact Hx. }
    destruct (IH st1 Hwf1) as (st' & Hrun & Hin & Hout).
    exists st'. split; [|split].
    + simpl. rewrite (filterSheet_filtered propName propVal s st sheet Hs Hall).
      fold st1. rewrite Hrun.
      rewrite (List.filter_ext (hasMatch propName propVal st1) (hasMatch propName propVal st))
        by (intros x; apply hasMatch_insert; exact Hs).
      reflexivity.
    + intros x Hx. destruct (in_dec Nat.eq_dec x l) as [Hxl|Hxl].
      * rewrite (Hin x Hxl). unfold st1. destruct (decide (s = x)) as [<-|Hne].
        -- rewrite lookup_insert_eq, Hs. simpl. rewrite filtered_filtered. reflexivity.
        -- rewrite lookup_insert_ne by exact Hne. reflexivity.
      * destruct Hx as [<-|Hx]; [|contradiction].
        rewrite (Hout s Hxl). unfold st1. rewrite lookup_insert_eq, Hs. reflexivity.
    + intros x Hx. rewrite Hout by (intros H; apply Hx; right; exact H).
      unfold st1. rewrite lookup_insert_ne; [reflexivity|].
      intros ->. apply Hx. left. reflexivity.
Qed.

Lemma matchesQuery_value_only (propName : option string) (propVal : string)
    (item : Declaration) :
  truthy propName = false ->
  propVal <> EmptyString ->
  matchesQuery propName (Some propVal) item = valueHasPrefix propVal item.
Proof.
  intros Hname Hval. unfold matchesQuery, valueHasPrefix.
  destruct (val (property item)); [|reflexivity].
  rewrite Hname, (truthy_Some _ Hval). reflexivity.
Qed.

Lemma length_filter_existsb {A} (f : A -> bool) (l : list A) :
  (0 <? List.length (List.filter f l))%nat = existsb f l.
Proof.
  induction l as [|x l IH]; simpl; [reflexivity|].
  destruct (f x); simpl; [reflexivity | exact IH].
Qed.

(** C9.  A query with a value that is not empty and no name, on any list
    of records whose declarations all have a value:
    [stylesheetsThatUsedProperty] and its copy [getPropertyUse] return, in
    the order of the list, the records that have a declaration whose value
    starts with the queried value, and leave each listed record with exactly
    those of its declarations, in their order; no other object changes.  A
    declaration is kept exactly when its value is the queried value followed
    by some rest. *)
Theorem C9_value_only_query_keeps_prefix_matches
    (stylesheets : list loc) (propName : option string) (propVal : string)
    (st : gmap loc StyleHeader) :
  truthy propName = false ->
  propVal <> EmptyString ->
  (forall s, In s stylesheets -> exists sheet, st !! s = Some sheet /\ allValues sheet) ->
  (forall item,
     valueHasPrefix propVal item = true <->
     exists v rest, val (property item) = Some v /\ v = (propVal ++ rest)%string) /\
  exists st',
    stylesheetsThatUsedProperty stylesheets propName (Some propVal) st
      = (st', Return (List.filter
                        (fun s => existsb (valueHasPrefix propVal) (itemsOf st s))
                        stylesheets)) /\
    WillChange.getPropertyUse stylesheets propName (Some propVal) st
      = (st', Return (List.filter
                        (fun s => existsb (valueHasPrefix propVal) (itemsOf st s))
                        stylesheets)) /\
    (forall s sheet items,
       In s stylesheets ->
       st !! s = Some sheet ->
       parsedContent sheet = Some items ->
       st' !! s = Some {| header := header sheet;
                          content := content sheet;
                          parsedContent :=
                            Some (List.filter (valueHasPrefix propVal) items) |}) /\
    (forall s, ~ In s stylesheets -> st' !! s = st !! s).
Proof.
  intros Hname Hval Hwf. split.
  - intros item. unfold valueHasPrefix.
    destruct (val (property item)) as [v|].
    + rewrite prefix_starts_with. split.
      * intros (rest & Hrest). exists v, rest. split; [reflexivity | exact Hrest].
      * intros (v' & rest & [= <-] & Hrest). exists rest. exact Hrest.
    + split; [discriminate | intros (v & rest & [=] & _)].
  - destruct (filterSheets_filtered_any propName (Some propVal) stylesheets st Hwf)
      as (st' & Hrun & Hin & Hout).
    exists st'.
    assert (stylesheetsThatUsedProperty stylesheets propName (Some propVal) st
            = (st', Return (List.filter
                              (fun s => existsb (valueHasPrefix propVal) (itemsOf st s))
                              stylesheets))) as Hquery.
    { unfold stylesheetsThatUsedProperty. rewrite Hname, (truthy_Some _ Hval). simpl.
      rewrite Hrun. f_equal. f_equal. apply List.filter_ext. intros s.
      unfold hasMatch, itemsOf. destruct (st !! s) as [sheet|]; [|reflexivity].
      destruct (parsedContent sheet) as [items|]; [|reflexivity]. simpl.
      rewrite (List.filter_ext _ _ (fun item =>
                 matchesQuery_value_only propName propVal item Hname Hval)).
      apply length_filter_existsb. }
    split; [exact Hquery|]. split; [exact Hquery|]. split; [|exact Hout].
    intros s sheet items Hs Hsheet Hitems. rewrite (Hin s Hs), Hsheet. simpl.
    unfold filtered. rewrite Hitems. simpl.
    rewrite (List.filter_ext _ _ (fun item =>
               matchesQuery_value_only propName propVal item Hname Hval)).
    reflexivity.
Qed.

End QueryOnAnyList.

Section QueryExamples.

Import JS UsesNewFlexBox.

Lemma C9_value_only_query_keeps_prefix_matches_witness :
  let flex := Fixture.decl "display" "flex" (Fixture.range 0 4 0 17) in
  let inlineFlex := Fixture.decl "display" "inline-flex" (Fixture.range 0 19 0 39) in
  let sheet := {| header := Fixture.sheetHeader "1";
                  content := Some "a { display: flex; display: inline-flex; }"%string;
                  parsedContent := Some [flex; inlineFlex] |} in
  let st : gmap loc StyleHeader := {[ 0%nat := sheet ]} in
  List.filter (valueHasPrefix "fle") [flex; inlineFlex] = [flex] /\
  truthy None = false /\
  "fle"%string <> EmptyString /\
  (forall s, In s [0%nat; 0%nat] -> exists sheet', st !! s = Some sheet' /\ allValues sheet') /\
  (forall item,
     valueHasPrefix "fle" item = true <->
     exists v rest, val (property item) = Some v /\ v = ("fle" ++ rest)%string) /\
  exists st',
    stylesheetsThatUsedProperty [0%nat; 0%nat] None (Some "fle"%string) st
      = (st', Return (List.filter
                        (fun s => existsb (valueHasPrefix "fle") (itemsOf st s))
                        [0%nat; 0%nat])) /\
    WillChange.getPropertyUse [0%nat; 0%nat] None (Some "fle"%string) st
      = (st', Return (List.filter
                        (fun s => existsb (valueHasPrefix "fle") (itemsOf st s))
                        [0%nat; 0%nat])) /\
    (forall s sheet' items,
       In s [0%nat; 0%nat] ->
       st !! s = Some sheet' ->
       parsedContent sheet' = Some items ->
       st' !! s = Some {| header := header sheet';
                          content := content sheet';
                          parsedContent :=
                            Some (List.filter (valueHasPrefix "fle") items) |}) /\
    (forall s, ~ In s [0%nat; 0%nat] -> st' !! s = st !! s).
Proof.
  intros flex inlineFlex sheet st.
  assert ("fle"%string <> EmptyString) as Hval by discriminate.
  assert (forall s, In s [0%nat; 0%nat] ->
            exists sheet', st !! s = Some sheet' /\ allValues sheet') as Hwf.
  { intros s [<-|[<-|[]]]; (exists sheet; split; [reflexivity|];
      exists [flex; inlineFlex]; split; [reflexivity|]; repeat constructor; discriminate). }
  split; [reflexivity|]. split; [reflexivity|]. split; [exact Hval|]. split; [exact Hwf|].
  exact (C9_value_only_query_keeps_prefix_matches [0%nat; 0%nat] None "fle" st
           eq_refl Hval Hwf).
Defined.

(** The original claim fails for the empty string as the queried value:
    every value starts with it, and the query keeps nothing, because the guard
    takes the empty string for an absent value. *)
Lemma C9_empty_value_keeps_nothing :
  let flex := Fixture.decl "display" "flex" (Fixture.range 0 4 0 17) in
  let sheet := {| header := Fixture.sheetHeader "1";
                  content := Some "a { display: flex; }"%string;
                  parsedContent := Some [flex] |} in
  let st : gmap loc StyleHeader := {[ 0%nat := sheet ]} in
  val (property flex) = Some "flex"%string /\
  (exists rest, "flex"%string = (EmptyString ++ rest)%string) /\
  stylesheetsThatUsedProperty [0%nat] None (Some EmptyString) st = (st, Return []) /\
  WillChange.getPropertyUse [0%nat] None (Some EmptyString) st = (st, Return []).
Proof.
  intros flex sheet st. split; [reflexivity|]. split; [exists "flex"%string; reflexivity|].
  split; reflexivity.
Qed.

End QueryExamples.

(** ** The errors of the three components *)

Section ComponentErrors.

Import JS Styles.




End ComponentErrors.
